(** * ghcr_prune: pruning old untagged versions of GHCR containers

    A shallow embedding of [tools/ghcr_prune.py] and the properties of its
    retention decision.

    Conventions of the model:
    - an instant (a timezone-aware [datetime]) is a [Z], the number of
      microseconds since the epoch; a [timedelta] is a [Z] number of
      microseconds.  The range of years of [datetime] is not modelled;
    - [dateutil.parser.parse] is an external library: it is a variable of
      the development, a partial function from strings to instants, [None]
      standing for the [ValueError] it raises on a string it cannot read.
      The timestamps of the registry carry a UTC designator, so a parsed
      timestamp is an aware instant;
    - [--prune-age] reaches [container_prune] as a float number of days and
      is at once turned into a [timedelta]; the model takes that [timedelta];
    - the registry answers well-formed JSON of the documented shape:
      [json.loads] and the reading of the fields are not modelled, a listing
      is a list of records;
    - the registry and the process (clock, standard output, log of the HTTP
      requests) are an explicit [World], threaded through a state and
      exception monad. *)

From Stdlib Require Import ZArith Ascii Sorted Permutation.
From stdpp Require Import gmap strings list.

Local Open Scope Z_scope.

(** ** Data *)

(** One element of the JSON array answered by
    [GET /user/packages/container/{container}/versions], with the four
    fields the program reads.  [tags] is
    [version["metadata"]["container"]["tags"]]; [created_at] is kept as the
    string the registry sent. *)
Record Version := mkVersion {
  id : Z;
  name : string;
  created_at : string;
  tags : list string
}.

(** Truth value of [version["metadata"]["container"]["tags"]]: a list is
    true when it is not empty. *)
Definition has_tags (version : Version) : bool :=
  match tags version with
  | [] => false
  | _ :: _ => true
  end.

(** The exceptions [container_prune] lets escape and [__main__] catches. *)
Inductive exn :=
| RequestException
| ValueError.

Inductive Result (A : Type) :=
| Ok (a : A)
| Raise (e : exn).
Arguments Ok {A} a.
Arguments Raise {A} e.

Definition rbind {A B} (r : Result A) (k : A -> Result B) : Result B :=
  match r with
  | Ok a => k a
  | Raise e => Raise e
  end.

Declare Scope result_scope.
Delimit Scope result_scope with result.
Notation "'let*' x ':=' r 'in' k" := (rbind r (fun x => k))
  (at level 10, x name, r at level 100, k at level 200) : result_scope.

(** ** [sorted]

    Python's [sorted] is stable, also with [reverse=True]: elements that
    compare equal keep the order of the input.  A stable sort is determined
    by its order, so insertion from the right models it: [x] goes in front
    of the first element it is not after. *)
Section Sorted.
Context {A : Type} (le : A -> A -> bool).

Fixpoint insert_sorted (x : A) (l : list A) : list A :=
  match l with
  | [] => [x]
  | y :: l' => if le x y then x :: l else y :: insert_sorted x l'
  end.

Fixpoint sorted (l : list A) : list A :=
  match l with
  | [] => []
  | x :: l' => insert_sorted x (sorted l')
  end.
End Sorted.

(** [key=lambda k: k["id"], reverse=True]: [x] is not after [y]. *)
Definition id_desc (x y : Version) : bool := id y <=? id x.

(** [timedelta(minutes=15)], in microseconds. *)
Definition tag_window : Z := 15 * 60 * 1000000.

(** ** The retention decision (lines 96-114) *)
Section Ghcr.
(** [dateutil.parser.parse]: the instant a string denotes, if any. *)
Variable dateutil_parse : string -> option Z.

Definition parse (s : string) : Result Z :=
  match dateutil_parse s with
  | Some t => Ok t
  | None => Raise ValueError
  end.

(** Lines 96-100: the creation dates of the tagged versions, in the order
    of the listing. *)
Fixpoint tagged_created (versions : list Version) : Result (list Z) :=
  match versions with
  | [] => Ok []
  | version :: rest =>
      if has_tags version then
        (let* t := parse (created_at version) in
         let* ts := tagged_created rest in
         Ok (t :: ts))%result
      else tagged_created rest
  end.

(** Lines 111-114, the [for ... else]: [true] when the loop leaves by
    [break], that is when [created] lies in [(tag_created - window,
    tag_created]] for some element of the list. *)
Fixpoint near_tagged (tagged : list Z) (window created : Z) : bool :=
  match tagged with
  | [] => false
  | tag_created :: rest =>
      if (tag_created - window <? created) && (created <=? tag_created)
      then true
      else near_tagged rest window created
  end.

(** Lines 107-114: does the loop body reach its [else] branch (line 115)
    for this version? *)
Definition prunable (del_before : Z) (tagged : list Z) (window : Z)
    (version : Version) : Result bool :=
  (let* created := parse (created_at version) in
   if (created <? del_before) && negb (has_tags version)
   then Ok (negb (near_tagged tagged window created))
   else Ok false)%result.

(** The versions for which the loop of line 105 reaches line 115, in the
    order the loop visits them. *)
Fixpoint candidates (del_before : Z) (tagged : list Z) (window : Z)
    (versions : list Version) : Result (list Version) :=
  match versions with
  | [] => Ok []
  | version :: rest =>
      (let* b := prunable del_before tagged window version in
       let* r := candidates del_before tagged window rest in
       Ok (if b : bool then version :: r else r))%result
  end.

(** The selection: what lines 96-114 decide for one listing. *)
Definition select_for_deletion (versions : list Version)
    (cutoff window : Z) : Result (list Version) :=
  (let* tagged := tagged_created versions in
   candidates cutoff tagged window (sorted id_desc versions))%result.

(** ** The world: registry, clock, standard output *)

(** The HTTP requests the program sends through its session. *)
Inductive Request :=
| GetPackages
| GetVersions (container : string)
| DeleteVersion (container : string) (version_id : Z).

(** - [clock n]: what [datetime.now().astimezone()] reads once [n] requests
      have been sent;
    - [listing]: the package names, in the order
      [GET /user/packages?package_type=container] answers them;
    - [store]: the versions of each package, in the order of its listing;
    - [faults]: the fate of the coming requests, [true] for one that fails
      on the way (connection error, HTTP error status); no entry left means
      no fault;
    - [requests]: the requests sent so far, oldest first;
    - [stdout]: the lines printed so far, oldest first. *)
Record World := mkWorld {
  clock : nat -> Z;
  listing : list string;
  store : gmap string (list Version);
  faults : list bool;
  requests : list Request;
  stdout : list string
}.

Definition set_store (s : gmap string (list Version)) (w : World) : World :=
  mkWorld (clock w) (listing w) s (faults w) (requests w) (stdout w).

Definition add_stdout (line : string) (w : World) : World :=
  mkWorld (clock w) (listing w) (store w) (faults w) (requests w)
          (stdout w ++ [line]).

Definition add_request (r : Request) (w : World) : World :=
  mkWorld (clock w) (listing w) (store w) (tail (faults w))
          (requests w ++ [r]) (stdout w).

(** State and exception monad: an exception keeps the effects that came
    before it. *)
Definition M (A : Type) : Type := World -> Result A * World.

Definition ret {A} (a : A) : M A := fun w => (Ok a, w).

Definition bind {A B} (m : M A) (k : A -> M B) : M B :=
  fun w =>
    match m w with
    | (Ok a, w') => k a w'
    | (Raise e, w') => (Raise e, w')
    end.

Definition lift {A} (r : Result A) : M A := fun w => (r, w).

Declare Scope prog_scope.
Delimit Scope prog_scope with prog.
Notation "'let*' x ':=' m 'in' k" := (bind m (fun x => k))
  (at level 10, x name, m at level 100, k at level 200) : prog_scope.
Notation "m ;; k" := (bind m (fun _ => k))
  (at level 100, k at level 200, right associativity) : prog_scope.

(** [for x in l: body x] *)
Fixpoint for_each {A} (l : list A) (body : A -> M unit) : M unit :=
  match l with
  | [] => ret tt
  | x :: l' => (body x ;; for_each l' body)%prog
  end.

Definition print (line : string) : M unit :=
  fun w => (Ok tt, add_stdout line w).

Definition current_time (w : World) : Z := clock w (length (requests w)).

Definition datetime_now : M Z := fun w => (Ok (current_time w), w).

(** Sending a request: it is logged, it uses up one entry of [faults], and
    it raises when that entry is a fault. *)
Definition send (r : Request) : M unit :=
  fun w =>
    match faults w with
    | true :: _ => (Raise RequestException, add_request r w)
    | _ => (Ok tt, add_request r w)
    end.

(** [sess.get('.../user/packages?package_type=container')],
    [raise_for_status()] and the names of the answer (line 79-82). *)
Definition get_packages : M (list string) :=
  (send GetPackages ;; fun w => (Ok (listing w), w))%prog.

(** [sess.get('.../user/packages/container/{container}/versions')],
    [raise_for_status()], [json.loads] (lines 90-93): an unknown package is
    an HTTP error. *)
Definition get_versions (container : string) : M (list Version) :=
  (send (GetVersions container) ;;
   fun w =>
     match store w !! container with
     | Some versions => (Ok versions, w)
     | None => (Raise RequestException, w)
     end)%prog.

Definition remove_version (i : Z) (versions : list Version) : list Version :=
  List.filter (fun v => negb (id v =? i)) versions.

(** [sess.delete('.../container/{container}/versions/{id}')] and
    [raise_for_status()] (lines 116-119): the registry removes the version,
    and answers an error status when there is none with this id. *)
Definition delete_version (container : string) (i : Z) : M unit :=
  (send (DeleteVersion container i) ;;
   fun w =>
     match store w !! container with
     | Some versions =>
         if existsb (fun v => id v =? i) versions
         then
           (Ok tt,
            set_store (<[container := remove_version i versions]> (store w))
                      w)
         else (Raise RequestException, w)
     | None => (Raise RequestException, w)
     end)%prog.

(** ** [container_prune] *)
(** Lines 105-123: the loop over the sorted versions; [del_cnt] is the
    counter of line 103. *)
Fixpoint prune_loop (container : string) (dry_run : bool)
    (del_before : Z) (tagged : list Z) (versions : list Version)
    (del_cnt : nat) : M nat :=
  match versions with
  | [] => ret del_cnt
  | version :: rest =>
      (let* reached :=
         lift (prunable del_before tagged tag_window version) in
       if reached : bool then
         (if dry_run then ret tt
          else delete_version container (id version)) ;;
         (if Nat.eqb del_cnt 0
          then print ("  " +:+ (if dry_run then "Would delete" else "Deleted")
                           +:+ ":")
          else ret tt) ;;
         print ("  " +:+ name version) ;;
         prune_loop container dry_run del_before tagged rest (S del_cnt)
       else
         prune_loop container dry_run del_before tagged rest del_cnt)%prog
  end.

(** Lines 96-123: what is done with the versions of one container. *)
Definition prune_versions (container : string) (dry_run : bool)
    (del_before : Z) (versions : list Version) : M unit :=
  (let* tagged := lift (tagged_created versions) in
   let* _ := prune_loop container dry_run del_before tagged
               (sorted id_desc versions) 0%nat in
   ret tt)%prog.

(** Lines 86-123: the body of the loop over the containers. *)
Definition prune_container (prune_age : Z) (dry_run : bool)
    (container : string) : M unit :=
  (print ("Pruning images of " +:+ container +:+ "...") ;;
   let* now := datetime_now in
   let del_before := now - prune_age in
   let* versions := get_versions container in
   prune_versions container dry_run del_before versions)%prog.

(** Line 78: is the argument list the one word [all]? *)
Definition is_all (containers : list string) : bool :=
  Nat.eqb (length containers) 1 && String.eqb (nth 0 containers "") "all".

Definition container_prune (containers : list string) (prune_age : Z)
    (dry_run : bool) : M unit :=
  (let* containers :=
     (if is_all containers
      then let* names := get_packages in ret (sorted String.leb names)
      else ret containers) in
   for_each containers (prune_container prune_age dry_run))%prog.

(** ** The selection as the specification words it *)
(** The listing is validated when every timestamp reads as an instant. *)
Definition timestamp_ok (version : Version) : bool :=
  match dateutil_parse (created_at version) with
  | Some _ => true
  | None => false
  end.

Definition validated (versions : list Version) : bool :=
  forallb timestamp_ok versions.

(** [created] is in the protection window of the tagged version [u]:
    [u.created_at - window < created <= u.created_at]. *)
Definition protects (window created : Z) (u : Version) : bool :=
  has_tags u &&
  match dateutil_parse (created_at u) with
  | Some t => (t - window <? created) && (created <=? t)
  | None => false
  end.

(** Step 3 of the algorithm: older than the cutoff, untagged, and in the
    protection window of no tagged version of the listing. *)
Definition is_candidate (versions : list Version) (cutoff window : Z)
    (v : Version) : bool :=
  match dateutil_parse (created_at v) with
  | Some created =>
      (created <? cutoff) && negb (has_tags v) &&
      negb (existsb (protects window created) versions)
  | None => false
  end.

(** The lines of the report for the candidates [r], when [del_cnt]
    versions were reported before them (lines 120-122). *)
Definition report_lines (dry_run : bool) (del_cnt : nat)
    (r : list Version) : list string :=
  match r with
  | [] => []
  | _ :: _ =>
      (if Nat.eqb del_cnt 0
       then ["  " +:+ (if dry_run then "Would delete" else "Deleted") +:+ ":"]
       else []) ++ map (fun v => "  " +:+ name v) r
  end.

Definition add_lines (lines : list string) (w : World) : World :=
  mkWorld (clock w) (listing w) (store w) (faults w) (requests w)
          (stdout w ++ lines).

Definition is_delete (r : Request) : bool :=
  match r with
  | DeleteVersion _ _ => true
  | _ => false
  end.

(** [w'] is [w] after requests none of which is a deletion: the registry
    holds the same versions. *)
Definition no_deletion (w w' : World) : Prop :=
  store w' = store w /\
  exists new,
    requests w' = requests w ++ new /\
    forallb (fun r => negb (is_delete r)) new = true.

(** A program that deletes nothing, however it ends. *)
Definition deletes_nothing {A} (m : M A) : Prop :=
  forall w res w', m w = (res, w') -> no_deletion w w'.

(** The report: a line that names a container opens its section, the lines
    of the section start with two spaces. *)
Definition section_header (container : string) : string :=
  "Pruning images of " +:+ container +:+ "...".

Definition indented (line : string) : bool :=
  match line with
  | String " "%char _ => true
  | _ => false
  end.

Definition section_headers (lines : list string) : list string :=
  List.filter (fun line => negb (indented line)) lines.

(** A program that prints nothing but lines of a section. *)
Definition prints_indented {A} (m : M A) : Prop :=
  forall w res w', m w = (res, w') ->
    exists lines, stdout w' = stdout w ++ lines /\
                  forallb indented lines = true.

(** A parser for the examples: it knows a few timestamps
    of December 2021. *)
Definition example_parse (s : string) : option Z :=
  if String.eqb s "2021-12-01T00:00:00Z" then Some 1638316800000000
  else if String.eqb s "2021-12-01T00:10:00Z" then Some 1638317400000000
  else if String.eqb s "2021-12-01T00:15:00Z" then Some 1638317700000000
  else if String.eqb s "2021-12-01T00:20:00Z" then Some 1638318000000000
  else if String.eqb s "2021-12-01T01:00:00Z" then Some 1638320400000000
  else if String.eqb s "2021-12-25T00:00:00Z" then Some 1640390400000000
  else None.

(** Versions for the examples: an untagged one pushed ten minutes before
    the tagged one, the tagged one, an untagged one fifty minutes after it,
    a recent untagged one, an untagged one ten minutes after the tagged
    one, and one whose timestamp does not read. *)
Definition v_layer : Version :=
  mkVersion 1 "sha256:1a" "2021-12-01T00:00:00Z" [].
Definition v_latest : Version :=
  mkVersion 2 "sha256:2b" "2021-12-01T00:10:00Z" ["latest"].
Definition v_orphan : Version :=
  mkVersion 3 "sha256:3c" "2021-12-01T01:00:00Z" [].
Definition v_recent : Version :=
  mkVersion 4 "sha256:4d" "2021-12-25T00:00:00Z" [].
Definition v_orphan2 : Version :=
  mkVersion 5 "sha256:5e" "2021-12-01T00:20:00Z" [].
Definition v_broken : Version :=
  mkVersion 6 "sha256:6f" "yesterday" ["v1"].

(** 2021-12-25T01:00:00Z, and a week. *)
Definition example_now : Z := 1640394000000000.
Definition week : Z := 7 * 24 * 60 * 60 * 1000000.

(** A registry with two packages, listed out of order; a request takes a
    second. *)
Definition example_world (fs : list bool) : World :=
  mkWorld (fun n => example_now + Z.of_nat n * 1000000) ["web"; "api"]
    (<["web" := [v_orphan2; v_orphan; v_layer; v_latest; v_recent]]>
       (<["api" := [v_latest]]> ∅))
    fs [] [].

(** The versions left of [stored] once the registry has removed those with
    the ids of [deleted]. *)
Definition without (deleted stored : list Version) : list Version :=
  List.filter (fun u => negb (existsb (fun v => id v =? id u) deleted)) stored.

(** ** [__main__]: the text of a failure (lines 141-146)

    [re.search] with the pattern of line 142.  The pattern is a sequence of
    the constructs below, some of them in a capturing group; the matcher
    backtracks as [re] does: a greedy construct tries the longest text
    first, an optional one tries to be there first, and the search takes
    the first position of the text at which the pattern matches.  A
    character is a byte of the UTF-8 text: the classes of the pattern name
    ASCII characters only, so they accept the same texts. *)
Inductive atom :=
| Lit (text : string)
| One (p : ascii -> bool)
| Opt (p : ascii -> bool)
| Star (p : ascii -> bool)
| Plus (p : ascii -> bool).

Fixpoint strip_prefix (text s : string) : option string :=
  match text, s with
  | EmptyString, _ => Some s
  | String a text', String b s' =>
      if Ascii.eqb a b then strip_prefix text' s' else None
  | String _ _, EmptyString => None
  end.

(** Any number of characters of the class [p], and then [k], which is
    given the text matched and the text left: as many characters as
    possible, one less when [k] fails, and so on. *)
Fixpoint greedy {A} (p : ascii -> bool) (k : string -> string -> option A)
    (taken s : string) : option A :=
  match s with
  | String c s' =>
      if p c then
        match greedy p k (taken +:+ String c "") s' with
        | Some r => Some r
        | None => k taken s
        end
      else k taken s
  | EmptyString => k taken s
  end.

Definition match_atom {A} (a : atom) (k : string -> string -> option A)
    (s : string) : option A :=
  match a with
  | Lit text =>
      match strip_prefix text s with
      | Some s' => k text s'
      | None => None
      end
  | One p =>
      match s with
      | String c s' => if p c then k (String c "") s' else None
      | EmptyString => None
      end
  | Opt p =>
      match s with
      | String c s' =>
          if p c then
            match k (String c "") s' with
            | Some r => Some r
            | None => k "" s
            end
          else k "" s
      | EmptyString => k "" s
      end
  | Star p => greedy p k "" s
  | Plus p =>
      match s with
      | String c s' => if p c then greedy p k (String c "") s' else None
      | EmptyString => None
      end
  end.

(** A pattern: its constructs, each marked when it is a capturing group.
    Matching at the start of [s] gives the texts of the groups. *)
Definition pattern : Type := list (bool * atom).

Fixpoint match_here (items : pattern) (s : string) : option (list string) :=
  match items with
  | [] => Some []
  | (captured, a) :: rest =>
      match_atom a
        (fun m s' =>
           match match_here rest s' with
           | Some groups =>
               Some (if captured : bool then m :: groups else groups)
           | None => None
           end) s
  end.

Fixpoint re_search (items : pattern) (s : string) : option (list string) :=
  match match_here items s with
  | Some groups => Some groups
  | None =>
      match s with
      | String _ s' => re_search items s'
      | EmptyString => None
      end
  end.

(** [[a-zA-Z0-9_]] *)
Definition is_word (c : ascii) : bool :=
  let n := nat_of_ascii c in
  ((97 <=? n) && (n <=? 122) || (65 <=? n) && (n <=? 90) ||
   (48 <=? n) && (n <=? 57) || (n =? 95))%nat.

(** A colon or a single quote. *)
Definition is_colon_or_quote (c : ascii) : bool :=
  Ascii.eqb c ":" || Ascii.eqb c "'".

(** The dot of a pattern, without [re.DOTALL]: any character but a
    newline. *)
Definition is_dot (c : ascii) : bool := negb (Ascii.eqb c "010").

(** The pattern of line 142, construct by construct: the text that opens a
    cause; group 1, one or more word characters; an opening parenthesis; an
    optional quote; any number of characters other than a colon and a
    quote; a colon or a quote; any number of spaces; group 2, any number
    of characters of a line; a quote and a closing parenthesis. *)
Definition caused_by : pattern :=
  [ (false, Lit "(Caused by ");
    (true, Plus is_word);
    (false, Lit "(");
    (false, Opt (fun c => Ascii.eqb c "'"));
    (false, Star (fun c => negb (is_colon_or_quote c)));
    (false, One is_colon_or_quote);
    (false, Star (fun c => Ascii.eqb c " "));
    (true, Star is_dot);
    (false, Lit "')") ].

(** Lines 142-145: [match.group(2)] when the pattern is found. *)
Definition simplify (msg : string) : string :=
  match re_search caused_by msg with
  | Some [_; reason] => reason
  | _ => msg
  end.

(** Line 146: the text given to [sys.exit]. *)
Definition failure_text (prog msg : string) : string :=
  prog +:+ ": " +:+ simplify msg.

Fixpoint all_chars (p : ascii -> bool) (s : string) : bool :=
  match s with
  | EmptyString => true
  | String c s' => p c && all_chars p s'
  end.

(** The text a construct accepts. *)
Definition accepts (a : atom) (m : string) : Prop :=
  match a with
  | Lit text => m = text
  | One p => exists c, m = String c "" /\ p c = true
  | Opt p => m = "" \/ exists c, m = String c "" /\ p c = true
  | Star p => all_chars p m = true
  | Plus p => m <> "" /\ all_chars p m = true
  end.

(** No opening parenthesis followed by a capital C in [s]. *)
Fixpoint no_open_C (s : string) : bool :=
  match s with
  | EmptyString => true
  | String a s' =>
      match s' with
      | String b _ => negb (Ascii.eqb "(" a && Ascii.eqb "C" b)
      | EmptyString => true
      end && no_open_C s'
  end.

(** The text of a connection failure as urllib3 words it. *)
Definition example_failure : string :=
  "HTTPSConnectionPool(host='api.github.com', port=443): Max retries " +:+
  "exceeded with url: /user/packages?package_type=container (Caused by " +:+
  "NewConnectionError('<urllib3.connection.HTTPSConnection object at " +:+
  "0x7f3a>: Failed to establish a new connection: [Errno -2] Name or " +:+
  "service not known'))".

(** The texts [ms] one after the other, and those of them that stand for
    the capturing groups of [items]. *)
Fixpoint join (ms : list string) : string :=
  match ms with
  | [] => ""
  | m :: ms' => m +:+ join ms'
  end.

Fixpoint groups_of (items : pattern) (ms : list string) : list string :=
  match items, ms with
  | (captured, _) :: items', m :: ms' =>
      if captured : bool then m :: groups_of items' ms'
      else groups_of items' ms'
  | _, _ => []
  end.

Definition starts_with_space (s : string) : bool :=
  match s with
  | String c _ => Ascii.eqb c " "
  | EmptyString => false
  end.

(** * Properties *)

(** ** [sorted] is a stable sort *)
Section SortedFacts.
Context {A : Type} (le : A -> A -> bool).

Let R (x y : A) : Prop := le x y = true.

Lemma insert_sorted_perm (x : A) (l : list A) :
  Permutation (insert_sorted le x l) (x :: l).
Proof.
  induction l as [|y l IH]; simpl; [reflexivity|].
  destruct (le x y); [reflexivity|].
  rewrite IH. apply perm_swap.
Qed.

Lemma sorted_perm (l : list A) : Permutation (sorted le l) l.
Proof.
  induction l as [|x l IH]; simpl; [reflexivity|].
  rewrite insert_sorted_perm. now constructor.
Qed.

Lemma sorted_In (l : list A) (x : A) : In x (sorted le l) <-> In x l.
Proof.
  split; apply Permutation_in; [|symmetry]; apply sorted_perm.
Qed.

Hypothesis le_total : forall x y, le x y = true \/ le y x = true.
Hypothesis le_trans : forall x y z, R x y -> R y z -> R x z.

Lemma insert_sorted_strongly (x : A) (l : list A) :
  StronglySorted R l -> StronglySorted R (insert_sorted le x l).
Proof.
  induction 1 as [|y l Hl IH Hy]; simpl.
  - repeat constructor.
  - destruct (le x y) eqn:E.
    + constructor; [now constructor|].
      constructor; [exact E|].
      eapply List.Forall_impl; [|exact Hy].
      intros z Hz. now apply (le_trans x y z).
    + constructor; [exact IH|].
      eapply Permutation_Forall; [symmetry; apply insert_sorted_perm|].
      constructor; [|exact Hy].
      destruct (le_total x y) as [H|H]; [congruence|exact H].
Qed.

Lemma sorted_strongly (l : list A) : StronglySorted R (sorted le l).
Proof.
  induction l; simpl; [constructor|now apply insert_sorted_strongly].
Qed.

(** In front of a list it is not after, [x] is put first. *)
Lemma insert_sorted_first (x : A) (l : list A) :
  Forall (R x) l -> insert_sorted le x l = x :: l.
Proof.
  destruct 1 as [|y l Hy _]; simpl; [reflexivity|].
  unfold R in Hy. now rewrite Hy.
Qed.

Lemma filter_insert_sorted (p : A -> bool) (x : A) (l : list A) :
  StronglySorted R l ->
  List.filter p (insert_sorted le x l) =
  if p x then insert_sorted le x (List.filter p l) else List.filter p l.
Proof.
  induction 1 as [|y l Hl IH Hy]; simpl.
  - now destruct (p x).
  - destruct (le x y) eqn:E; simpl.
    + destruct (p x) eqn:Px; [|reflexivity].
      destruct (p y) eqn:Py; simpl; [now rewrite E|].
      symmetry. apply insert_sorted_first.
      apply List.Forall_forall. intros z Hz.
      apply List.filter_In in Hz as [Hz _].
      rewrite List.Forall_forall in Hy.
      apply (le_trans x y z); [exact E|now apply Hy].
    + rewrite IH.
      destruct (p y) eqn:Py; destruct (p x) eqn:Px; simpl;
        rewrite ?E; reflexivity.
Qed.

(** Filtering and stable sorting commute. *)
Lemma filter_sorted (p : A -> bool) (l : list A) :
  List.filter p (sorted le l) = sorted le (List.filter p l).
Proof.
  induction l as [|x l IH]; simpl; [reflexivity|].
  rewrite filter_insert_sorted by apply sorted_strongly.
  rewrite IH. now destruct (p x).
Qed.
End SortedFacts.

(** Two sorted arrangements of the same elements are equal when no two
    different elements are each before the other. *)
Lemma strongly_sorted_unique {A} (R : A -> A -> Prop) (l1 l2 : list A) :
  (forall a b, In a l1 -> In b l1 -> R a b -> R b a -> a = b) ->
  StronglySorted R l1 -> StronglySorted R l2 -> Permutation l1 l2 -> l1 = l2.
Proof.
  intros Hanti H1. revert l2.
  induction H1 as [|a1 l1 Hs1 IH Ha1]; intros l2 H2 HP.
  - apply Permutation_nil in HP. now subst.
  - destruct H2 as [|a2 l2 Hs2 Ha2].
    + symmetry in HP. apply Permutation_nil in HP. discriminate.
    + assert (E : a1 = a2).
      { assert (I1 : In a1 (a2 :: l2))
          by (eapply Permutation_in; [exact HP|now left]).
        assert (I2 : In a2 (a1 :: l1))
          by (eapply Permutation_in; [symmetry; exact HP|now left]).
        destruct I1 as [->|I1]; [reflexivity|].
        destruct I2 as [->|I2]; [reflexivity|].
        rewrite List.Forall_forall in Ha1, Ha2.
        apply Hanti; [now left|now right|now apply Ha1|now apply Ha2]. }
      subst a2. f_equal. apply IH.
      * intros a b Ia Ib. apply Hanti; now right.
      * exact Hs2.
      * now apply Permutation_cons_inv in HP.
Qed.

Lemma strongly_sorted_weaken {A} (R R' : A -> A -> Prop) (l : list A) :
  (forall a b, R a b -> R' a b) -> StronglySorted R l -> StronglySorted R' l.
Proof.
  intros HR. induction 1 as [|x l _ IH Hx]; constructor; [exact IH|].
  eapply List.Forall_impl; [|exact Hx]. intros b. apply HR.
Qed.

Lemma id_desc_total (x y : Version) :
  id_desc x y = true \/ id_desc y x = true.
Proof. unfold id_desc. lia. Qed.

Lemma id_desc_trans (x y z : Version) :
  id_desc x y = true -> id_desc y z = true -> id_desc x z = true.
Proof. unfold id_desc. lia. Qed.

Lemma string_leb_trans (x y z : string) :
  String.leb x y = true -> String.leb y z = true -> String.leb x z = true.
Proof.
  intros H1 H2. apply Is_true_true.
  apply Is_true_true in H1, H2.
  exact (transitivity (R := String.le) H1 H2).
Qed.

(** ** The decision *)

Lemma near_tagged_true (tagged : list Z) (window created : Z) :
  near_tagged tagged window created = true <->
  exists t, In t tagged /\ t - window < created <= t.
Proof.
  induction tagged as [|t tagged IH]; simpl.
  - split; [discriminate|]. now intros (t & [] & _).
  - destruct ((t - window <? created) && (created <=? t)) eqn:E.
    + split; [|reflexivity]. intros _. exists t. split; [now left|lia].
    + rewrite IH. split.
      * intros (t' & Ht' & Hw). exists t'. split; [now right|exact Hw].
      * intros (t' & [->|Ht'] & Hw); [lia|]. now exists t'.
Qed.

(** The loop over the collected dates decides what the specification asks
    of the tagged versions of the listing. *)
Lemma near_tagged_protects (versions : list Version) (tagged : list Z)
    (window created : Z) :
  tagged_created versions = Ok tagged ->
  near_tagged tagged window created =
  existsb (protects window created) versions.
Proof.
  revert tagged.
  induction versions as [|u versions IH]; simpl; intros tagged H.
  - now inversion H.
  - unfold protects at 1. destruct (has_tags u); simpl.
    + unfold parse in H. destruct (dateutil_parse (created_at u)) as [t|];
        simpl in H; [|discriminate].
      destruct (tagged_created versions) as [ts|e]; simpl in H;
        [|discriminate].
      inversion H; subst tagged. simpl.
      rewrite (IH ts eq_refl).
      now destruct ((t - window <? created) && (created <=? t)).
    + now apply IH.
Qed.

Lemma prunable_is_candidate (versions : list Version) (tagged : list Z)
    (cutoff window : Z) (v : Version) (b : bool) :
  tagged_created versions = Ok tagged ->
  prunable cutoff tagged window v = Ok b ->
  timestamp_ok v = true /\ b = is_candidate versions cutoff window v.
Proof.
  intros HT. unfold prunable, is_candidate, timestamp_ok, parse.
  destruct (dateutil_parse (created_at v)) as [created|]; simpl;
    [|discriminate].
  rewrite <- (near_tagged_protects versions tagged window created HT).
  destruct ((created <? cutoff) && negb (has_tags v));
    simpl; intros H; inversion H; auto.
Qed.

Lemma candidates_filter (versions : list Version) (tagged : list Z)
    (cutoff window : Z) (l r : list Version) :
  tagged_created versions = Ok tagged ->
  candidates cutoff tagged window l = Ok r ->
  validated l = true /\
  r = List.filter (is_candidate versions cutoff window) l.
Proof.
  intros HT. revert r.
  induction l as [|v l IH]; simpl; intros r H.
  - inversion H. auto.
  - destruct (prunable cutoff tagged window v) as [b|e] eqn:Hb;
      simpl in H; [|discriminate].
    destruct (candidates cutoff tagged window l) as [r0|e] eqn:Hr;
      simpl in H; [|discriminate].
    destruct (prunable_is_candidate _ _ _ _ _ _ HT Hb) as [Hv ->].
    destruct (IH r0 eq_refl) as [Hl ->].
    rewrite Hv, Hl. inversion H. auto.
Qed.

Lemma tagged_created_total (versions : list Version) :
  validated versions = true ->
  exists tagged, tagged_created versions = Ok tagged.
Proof.
  induction versions as [|u versions IH]; simpl; [now eexists|].
  intros H. apply andb_true_iff in H as [Hu Hl].
  destruct (IH Hl) as [ts Hts]. rewrite Hts.
  unfold timestamp_ok in Hu. unfold parse.
  destruct (dateutil_parse (created_at u)); [|discriminate].
  destruct (has_tags u); simpl; eauto.
Qed.

Lemma candidates_total (cutoff : Z) (tagged : list Z) (window : Z)
    (l : list Version) :
  validated l = true ->
  exists r, candidates cutoff tagged window l = Ok r.
Proof.
  induction l as [|v l IH]; simpl; [now eexists|].
  intros H. apply andb_true_iff in H as [Hv Hl].
  destruct (IH Hl) as [r Hr]. rewrite Hr.
  unfold timestamp_ok in Hv. unfold prunable, parse.
  destruct (dateutil_parse (created_at v)); [|discriminate]. simpl.
  destruct ((_ <? _) && _); simpl; eauto.
Qed.

Lemma validated_sorted (versions : list Version) :
  validated (sorted id_desc versions) = validated versions.
Proof.
  unfold validated. apply eq_true_iff_eq.
  rewrite !forallb_forall.
  split; intros H v Hv; apply H; now apply (sorted_In id_desc).
Qed.

(** The selection returns when the listing is validated, and only then;
    what it returns is the candidates of the specification, in the order
    of the sorted listing. *)
Lemma select_for_deletion_spec (versions : list Version)
    (cutoff window : Z) (r : list Version) :
  select_for_deletion versions cutoff window = Ok r <->
  validated versions = true /\
  r = List.filter (is_candidate versions cutoff window)
        (sorted id_desc versions).
Proof.
  unfold select_for_deletion. split.
  - destruct (tagged_created versions) as [tagged|e] eqn:HT; simpl;
      [|discriminate].
    intros H. apply (candidates_filter versions) in H as [Hv ->];
      [|exact HT].
    now rewrite validated_sorted in Hv.
  - intros [Hv ->].
    destruct (tagged_created_total versions Hv) as [tagged HT].
    rewrite HT. simpl.
    rewrite <- validated_sorted in Hv.
    destruct (candidates_total cutoff tagged window _ Hv) as [r Hr].
    rewrite Hr. f_equal.
    now apply (candidates_filter versions) in Hr as [_ ->].
Qed.

Lemma select_for_deletion_In (versions : list Version)
    (cutoff window : Z) (r : list Version) (v : Version) :
  select_for_deletion versions cutoff window = Ok r ->
  In v r <-> In v versions /\ is_candidate versions cutoff window v = true.
Proof.
  intros H. apply select_for_deletion_spec in H as [_ ->].
  rewrite List.filter_In. now rewrite (sorted_In id_desc).
Qed.

Lemma filter_perm {A} (p : A -> bool) (l l' : list A) :
  Permutation l l' -> Permutation (List.filter p l) (List.filter p l').
Proof.
  induction 1 as [|x l l' _ IH|x y l|l l' l'' _ IH1 _ IH2]; simpl.
  - constructor.
  - destruct (p x); [now constructor|exact IH].
  - destruct (p x), (p y); try reflexivity. apply perm_swap.
  - now transitivity (List.filter p l').
Qed.

Lemma existsb_perm {A} (p : A -> bool) (l l' : list A) :
  Permutation l l' -> existsb p l = existsb p l'.
Proof.
  intros HP. apply eq_true_iff_eq. rewrite !existsb_exists.
  split; intros (x & Hx & Hp); exists x; (split; [|exact Hp]).
  - eapply Permutation_in; [exact HP|exact Hx].
  - eapply Permutation_in; [symmetry; exact HP|exact Hx].
Qed.

Lemma NoDup_map_eq {A B} (f : A -> B) (l : list A) (a b : A) :
  List.NoDup (map f l) -> In a l -> In b l -> f a = f b -> a = b.
Proof.
  induction l as [|x l IH]; simpl; [contradiction|].
  intros HN. apply List.NoDup_cons_iff in HN as [Hx HN].
  intros [->|Ha] [->|Hb] E; trivial.
  - exfalso. apply Hx. rewrite E. now apply in_map.
  - exfalso. apply Hx. rewrite <- E. now apply in_map.
  - now apply IH.
Qed.

(** ** The claims on the selection *)

Lemma is_candidate_perm (versions versions' : list Version)
    (cutoff window : Z) (v : Version) :
  Permutation versions versions' ->
  is_candidate versions cutoff window v =
  is_candidate versions' cutoff window v.
Proof.
  intros HP. unfold is_candidate.
  destruct (dateutil_parse (created_at v)); [|reflexivity].
  now rewrite (existsb_perm _ _ _ HP).
Qed.

Lemma validated_perm (versions versions' : list Version) :
  Permutation versions versions' -> validated versions = validated versions'.
Proof.
  intros HP. unfold validated. apply eq_true_iff_eq.
  rewrite !forallb_forall.
  split; intros H v Hv; apply H.
  - eapply Permutation_in; [symmetry; exact HP|exact Hv].
  - eapply Permutation_in; [exact HP|exact Hv].
Qed.

(** The protection holds for any width of the window. *)
Lemma select_protected (versions : list Version) (cutoff window : Z)
    (r : list Version) (v u : Version) (t created : Z) :
  select_for_deletion versions cutoff window = Ok r ->
  In u versions -> tags u <> [] ->
  dateutil_parse (created_at u) = Some t ->
  dateutil_parse (created_at v) = Some created ->
  t - window < created <= t ->
  ~ In v r.
Proof.
  intros Hs Hu Htags Ht Hc Hw Hv.
  apply (select_for_deletion_In _ _ _ _ v Hs) in Hv as [_ Hv].
  unfold is_candidate in Hv. rewrite Hc in Hv.
  apply andb_true_iff in Hv as [_ Hv]. apply negb_true_iff in Hv.
  assert (E : existsb (protects window created) versions = true).
  { apply existsb_exists. exists u. split; [exact Hu|].
    unfold protects, has_tags. rewrite Ht.
    destruct (tags u); [congruence|]. simpl. lia. }
  congruence.
Qed.

(** C1. For every listing and cutoff, with the window of 15 minutes: a
    version [v] created at [created] is not in the selection as soon as some
    tagged version [u] of the listing was created at an instant [t] with
    [t - 15min < created <= t] (lower bound strict, upper bound included).
    Nothing else is asked of [v]: it may be untagged and older than the
    cutoff.  Any tagged version protects, so the protection is the
    disjunction over all of them, overlapping windows included. *)
Theorem protection_window_respected (versions : list Version) (cutoff : Z)
    (r : list Version) (v u : Version) (t created : Z) :
  select_for_deletion versions cutoff tag_window = Ok r ->
  In u versions -> tags u <> [] ->
  dateutil_parse (created_at u) = Some t ->
  dateutil_parse (created_at v) = Some created ->
  t - 15 * 60 * 1000000 < created <= t ->
  ~ In v r.
Proof. apply select_protected. Qed.

(** C2. Every version of the selection has an empty tag set: a version
    with a tag is not selected, whatever its age. *)
Theorem selected_untagged (versions : list Version) (cutoff window : Z)
    (r : list Version) (v : Version) :
  select_for_deletion versions cutoff window = Ok r ->
  In v r -> tags v = [].
Proof.
  intros Hs Hv.
  apply (select_for_deletion_In _ _ _ _ v Hs) in Hv as [_ Hv].
  unfold is_candidate, has_tags in Hv.
  destruct (dateutil_parse (created_at v)); [|discriminate].
  destruct (tags v); [reflexivity|].
  rewrite andb_false_r in Hv. discriminate.
Qed.

(** C3. Every version of the selection was created strictly before the
    cutoff; one created at the cutoff or after it is not selected. *)
Theorem selected_before_cutoff (versions : list Version) (cutoff window : Z)
    (r : list Version) (v : Version) :
  select_for_deletion versions cutoff window = Ok r ->
  In v r ->
  exists created,
    dateutil_parse (created_at v) = Some created /\ created < cutoff.
Proof.
  intros Hs Hv.
  apply (select_for_deletion_In _ _ _ _ v Hs) in Hv as [_ Hv].
  unfold is_candidate in Hv.
  destruct (dateutil_parse (created_at v)) as [created|]; [|discriminate].
  exists created. split; [reflexivity|].
  apply andb_true_iff in Hv as [Hv _]. apply andb_true_iff in Hv as [Hv _].
  lia.
Qed.

(** C4. The selection is the candidates of the listing, taken as they
    appear in it and sorted by id, largest first.  The order of ids only
    arranges the result: which versions are selected is decided version by
    version, so listings with the same versions in different orders select
    the same versions, and the same list when ids are not repeated. *)
Theorem selection_sorted_by_id_desc (versions : list Version)
    (cutoff window : Z) (r : list Version) :
  select_for_deletion versions cutoff window = Ok r ->
  r = sorted id_desc
        (List.filter (is_candidate versions cutoff window) versions)
  /\ StronglySorted (fun a b => id b <= id a) r
  /\ (forall v, In v r <->
        In v versions /\ is_candidate versions cutoff window v = true)
  /\ (forall versions',
        Permutation versions versions' ->
        exists r',
          select_for_deletion versions' cutoff window = Ok r' /\
          Permutation r r' /\
          (List.NoDup (map id versions) -> r' = r)).
Proof.
  intros Hs.
  assert (Hsorted : forall l, StronglySorted (fun a b => id b <= id a)
                                (sorted id_desc l)).
  { intros l. eapply strongly_sorted_weaken;
      [|apply (sorted_strongly id_desc id_desc_total id_desc_trans)].
    unfold id_desc. intros a b H. simpl in H. lia. }
  pose proof (fun v => select_for_deletion_In _ _ _ _ v Hs) as HIn.
  apply select_for_deletion_spec in Hs as [Hval Hr].
  rewrite (filter_sorted id_desc id_desc_total id_desc_trans) in Hr.
  split; [exact Hr|].
  split; [rewrite Hr; apply Hsorted|].
  split; [exact HIn|].
  intros versions' HP.
  exists (sorted id_desc
            (List.filter (is_candidate versions' cutoff window) versions')).
  assert (HPr : Permutation r
            (sorted id_desc
               (List.filter (is_candidate versions' cutoff window) versions'))).
  { rewrite Hr, !sorted_perm.
    rewrite (List.filter_ext _ (is_candidate versions' cutoff window))
      by (intros a; apply is_candidate_perm, HP).
    now apply filter_perm. }
  split; [|split; [exact HPr|]].
  - apply select_for_deletion_spec. split.
    + now rewrite <- (validated_perm _ _ HP).
    + symmetry. apply (filter_sorted id_desc id_desc_total id_desc_trans).
  - intros HN. symmetry.
    apply (strongly_sorted_unique (fun a b => id b <= id a)).
    + intros a b Ha Hb H1 H2.
      apply (NoDup_map_eq id versions); trivial; try lia.
      * now apply HIn.
      * now apply HIn.
    + rewrite Hr. apply Hsorted.
    + apply Hsorted.
    + exact HPr.
Qed.

(** ** Programs that delete nothing *)

Lemma no_deletion_refl (w : World) : no_deletion w w.
Proof.
  split; [reflexivity|]. exists []. now rewrite app_nil_r.
Qed.

Lemma no_deletion_trans (w1 w2 w3 : World) :
  no_deletion w1 w2 -> no_deletion w2 w3 -> no_deletion w1 w3.
Proof.
  intros [S1 (n1 & R1 & F1)] [S2 (n2 & R2 & F2)].
  split; [congruence|]. exists (n1 ++ n2).
  rewrite R2, R1, <- app_assoc. split; [reflexivity|].
  rewrite forallb_app, F1, F2. reflexivity.
Qed.

Lemma deletes_nothing_ret {A} (a : A) : deletes_nothing (ret a).
Proof. intros w res w' H. inversion H. apply no_deletion_refl. Qed.

Lemma deletes_nothing_lift {A} (r : Result A) : deletes_nothing (lift r).
Proof. intros w res w' H. inversion H. apply no_deletion_refl. Qed.

Lemma deletes_nothing_print (line : string) : deletes_nothing (print line).
Proof.
  intros w res w' H. inversion H.
  split; [reflexivity|]. exists []. simpl. now rewrite app_nil_r.
Qed.

Lemma deletes_nothing_now : deletes_nothing datetime_now.
Proof. intros w res w' H. inversion H. apply no_deletion_refl. Qed.

Lemma deletes_nothing_bind {A B} (m : M A) (k : A -> M B) :
  deletes_nothing m -> (forall a, deletes_nothing (k a)) ->
  deletes_nothing (bind m k).
Proof.
  intros Hm Hk w res w'. unfold bind.
  destruct (m w) as [[a|e] w1] eqn:E; intros H.
  - eapply no_deletion_trans; [eapply Hm, E|eapply Hk, H].
  - inversion H; subst. eapply Hm, E.
Qed.

Lemma deletes_nothing_send (r : Request) :
  is_delete r = false -> deletes_nothing (send r).
Proof.
  intros Hr w res w' H.
  assert (E : w' = add_request r w).
  { unfold send in H. destruct (faults w) as [|[] ?]; now inversion H. }
  subst w'. split; [reflexivity|]. exists [r]. simpl. now rewrite Hr.
Qed.

Lemma deletes_nothing_get_versions (container : string) :
  deletes_nothing (get_versions container).
Proof.
  apply deletes_nothing_bind; [now apply deletes_nothing_send|].
  intros _ w res w' H.
  destruct (store w !! container); inversion H; apply no_deletion_refl.
Qed.

Lemma deletes_nothing_get_packages : deletes_nothing get_packages.
Proof.
  apply deletes_nothing_bind; [now apply deletes_nothing_send|].
  intros _ w res w' H. inversion H. apply no_deletion_refl.
Qed.

Lemma deletes_nothing_for_each {A} (l : list A) (body : A -> M unit) :
  (forall x, deletes_nothing (body x)) -> deletes_nothing (for_each l body).
Proof.
  intros Hb. induction l as [|x l IH]; simpl.
  - apply deletes_nothing_ret.
  - apply deletes_nothing_bind; [apply Hb|intros _; exact IH].
Qed.

Create HintDb quiet.
#[local] Hint Resolve deletes_nothing_ret deletes_nothing_lift
  deletes_nothing_print deletes_nothing_now deletes_nothing_get_versions
  deletes_nothing_get_packages : quiet.

Lemma report_lines_succ (dry_run : bool) (n : nat) (r : list Version) :
  report_lines dry_run (S n) r = map (fun v => "  " +:+ name v) r.
Proof. now destruct r. Qed.

Lemma add_lines_nil (w : World) : add_lines [] w = w.
Proof. destruct w. unfold add_lines. simpl. now rewrite app_nil_r. Qed.

Lemma add_lines_app (l1 l2 : list string) (w : World) :
  add_lines l2 (add_lines l1 w) = add_lines (l1 ++ l2) w.
Proof. unfold add_lines. simpl. now rewrite app_assoc. Qed.

Lemma add_stdout_lines (line : string) (w : World) :
  add_stdout line w = add_lines [line] w.
Proof. reflexivity. Qed.

(** ** The dry run *)

Lemma deletes_nothing_prune_loop (container : string) (del_before : Z)
    (tagged : list Z) (versions : list Version) (del_cnt : nat) :
  deletes_nothing
    (prune_loop container true del_before tagged versions del_cnt).
Proof.
  revert del_cnt. induction versions as [|v versions IH]; intros n; simpl.
  - auto with quiet.
  - apply deletes_nothing_bind; [auto with quiet|]. intros [|]; [|apply IH].
    apply deletes_nothing_bind; [auto with quiet|intros _].
    apply deletes_nothing_bind;
      [destruct (Nat.eqb n 0); auto with quiet|intros _].
    apply deletes_nothing_bind; [auto with quiet|intros _].
    apply IH.
Qed.

Lemma deletes_nothing_container_prune (containers : list string)
    (prune_age : Z) :
  deletes_nothing (container_prune containers prune_age true).
Proof.
  apply deletes_nothing_bind.
  - destruct (is_all containers); [|auto with quiet].
    apply deletes_nothing_bind; auto with quiet.
  - intros cs. apply deletes_nothing_for_each. intros c.
    unfold prune_container.
    apply deletes_nothing_bind; [auto with quiet|intros _].
    apply deletes_nothing_bind; [auto with quiet|intros now].
    apply deletes_nothing_bind; [auto with quiet|intros versions].
    unfold prune_versions.
    apply deletes_nothing_bind; [auto with quiet|intros tagged].
    apply deletes_nothing_bind; [|auto with quiet].
    apply deletes_nothing_prune_loop.
Qed.

(** The loop of the dry run prints the report of the candidates and does
    nothing else. *)
Lemma prune_loop_dry (container : string) (del_before : Z) (tagged : list Z)
    (versions r : list Version) (del_cnt : nat) (w : World) :
  candidates del_before tagged tag_window versions = Ok r ->
  prune_loop container true del_before tagged versions del_cnt w =
  (Ok (del_cnt + length r)%nat, add_lines (report_lines true del_cnt r) w).
Proof.
  revert r del_cnt w.
  induction versions as [|v versions IH]; simpl; intros r n w H.
  - inversion H. simpl. now rewrite add_lines_nil, Nat.add_0_r.
  - destruct (prunable del_before tagged tag_window v)
      as [b|e] eqn:Hb; simpl in H; [|discriminate].
    destruct (candidates del_before tagged tag_window versions)
      as [r0|e] eqn:Hr; simpl in H; [|discriminate].
    inversion H; subst r; clear H.
    unfold bind at 1, lift at 1.
    destruct b; [|now apply IH].
    unfold bind, ret, print.
    destruct (Nat.eqb n 0) eqn:En.
    + rewrite (IH r0 (S n)) by reflexivity.
      rewrite !add_stdout_lines, !add_lines_app, report_lines_succ.
      simpl. rewrite En. simpl. do 2 f_equal. lia.
    + rewrite (IH r0 (S n)) by reflexivity.
      rewrite !add_stdout_lines, !add_lines_app, report_lines_succ.
      simpl. rewrite En. simpl. do 2 f_equal. lia.
Qed.

Lemma prune_versions_dry (container : string) (del_before : Z)
    (versions r : list Version) (w : World) :
  select_for_deletion versions del_before tag_window = Ok r ->
  prune_versions container true del_before versions w =
  (Ok tt, add_lines (report_lines true 0 r) w).
Proof.
  unfold select_for_deletion, prune_versions.
  destruct (tagged_created versions) as [tagged|e]; simpl;
    [|discriminate].
  intros H. unfold bind at 1, lift. unfold bind.
  now rewrite (prune_loop_dry _ _ _ _ r).
Qed.

(** ** The live run *)

Lemma delete_version_inv (container : string) (i : Z) (w : World)
    (res : Result unit) (w' : World) :
  delete_version container i w = (res, w') ->
  requests w' = requests w ++ [DeleteVersion container i] /\
  stdout w' = stdout w /\
  faults w' = tail (faults w) /\
  (res = Ok tt \/ res = Raise RequestException).
Proof.
  unfold delete_version, bind, send.
  destruct (faults w) as [|[|] fs] eqn:F; intros H;
    try (inversion H; subst; simpl; rewrite F; auto; fail);
    simpl in H;
    destruct (store w !! container) as [versions|];
    try destruct (existsb _ versions);
    inversion H; subst; simpl; rewrite F; auto.
Qed.

Lemma delete_version_ok (container : string) (i : Z) (w : World)
    (versions : list Version) :
  hd false (faults w) = false ->
  store w !! container = Some versions ->
  existsb (fun v => id v =? i) versions = true ->
  delete_version container i w =
  (Ok tt,
   set_store (<[container := remove_version i versions]> (store w))
             (add_request (DeleteVersion container i) w)).
Proof.
  intros F S E. unfold delete_version, bind, send.
  destruct (faults w) as [|[|] fs]; try discriminate; simpl;
    now rewrite S, E.
Qed.

Lemma existsb_remove_version (i j : Z) (versions : list Version) :
  i <> j ->
  existsb (fun u => id u =? j) (remove_version i versions) =
  existsb (fun u => id u =? j) versions.
Proof.
  intros Hij. induction versions as [|u versions IH]; simpl; [reflexivity|].
  destruct (id u =? i) eqn:E; simpl; rewrite IH; [|reflexivity].
  assert ((id u =? j) = false) as -> by lia. reflexivity.
Qed.

(** In the live run the loop sends the deletions of the candidates, in
    their order, as far as the first one that fails. *)
Lemma prune_loop_live (container : string) (del_before : Z)
    (tagged : list Z) (versions r : list Version) (del_cnt : nat)
    (w : World) (res : Result nat) (w' : World) :
  candidates del_before tagged tag_window versions = Ok r ->
  prune_loop container false del_before tagged versions del_cnt w = (res, w') ->
  exists k : nat,
    requests w' =
      requests w ++
      map (fun v => DeleteVersion container (id v)) (firstn k r) /\
    match res with
    | Ok _ =>
        k = length r /\
        stdout w' = stdout w ++ report_lines false del_cnt r
    | Raise e =>
        e = RequestException /\ (0 < k <= length r)%nat /\
        stdout w' = stdout w ++ report_lines false del_cnt (firstn (k - 1) r)
    end.
Proof.
  revert r del_cnt w.
  induction versions as [|v versions IH]; simpl; intros r n w H Hrun.
  - inversion H; subst. inversion Hrun; subst. exists 0%nat. simpl.
    now rewrite !app_nil_r.
  - destruct (prunable del_before tagged tag_window v)
      as [b|e] eqn:Hb; simpl in H; [|discriminate].
    destruct (candidates del_before tagged tag_window versions)
      as [r0|e] eqn:Hr; simpl in H; [|discriminate].
    inversion H; subst r; clear H.
    unfold bind at 1, lift at 1 in Hrun.
    destruct b; [|now apply (IH r0 n w)].
    unfold bind at 1 in Hrun.
    destruct (delete_version container (id v) w) as [[[]|e] w1] eqn:Hd;
      apply delete_version_inv in Hd as (Rq & So & _ & Hres).
    + assert (Hw2 : exists w2,
                prune_loop container false del_before tagged versions (S n) w2
                  = (res, w') /\
                requests w2 = requests w1 /\
                stdout w2 = stdout w ++
                  (if Nat.eqb n 0 then ["  " +:+ "Deleted" +:+ ":"] else [])
                  ++ ["  " +:+ name v]).
      { unfold bind, print, ret in Hrun.
        destruct (Nat.eqb n 0); eexists; (split; [exact Hrun|]); simpl;
          rewrite So, <- ?app_assoc; auto. }
      destruct Hw2 as (w2 & Hrun2 & Rq2 & So2).
      destruct (IH r0 (S n) w2 eq_refl Hrun2) as (k & Hk & Hres').
      exists (S k). split.
      * rewrite Hk, Rq2, Rq, <- app_assoc. reflexivity.
      * rewrite report_lines_succ in Hres'.
        destruct res as [m|e].
        -- destruct Hres' as [-> ->]. split; [reflexivity|].
           rewrite So2, <- !app_assoc. reflexivity.
        -- destruct Hres' as (-> & Hpos & ->).
           split; [reflexivity|]. split; [simpl; lia|].
           replace (S k - 1)%nat with (S (k - 1)) by lia.
           rewrite So2, <- !app_assoc. simpl.
           now destruct (firstn (k - 1) r0).
    + inversion Hrun; subst. exists 1%nat. split; [exact Rq|].
      destruct Hres as [|Hres]; [discriminate|]. inversion Hres.
      split; [reflexivity|]. split; [simpl; lia|].
      simpl. now rewrite app_nil_r.
Qed.

(** Without faults and with ids that are not repeated, every deletion
    succeeds. *)
Lemma prune_loop_live_ok (container : string) (del_before : Z)
    (tagged : list Z) (versions r : list Version) (del_cnt : nat)
    (w : World) (stored : list Version) :
  candidates del_before tagged tag_window versions = Ok r ->
  forallb negb (faults w) = true ->
  List.NoDup (map id r) ->
  store w !! container = Some stored ->
  (forall v, In v r -> existsb (fun u => id u =? id v) stored = true) ->
  exists m w',
    prune_loop container false del_before tagged versions del_cnt w =
    (Ok m, w').
Proof.
  revert r del_cnt w stored.
  induction versions as [|v versions IH]; simpl;
    intros r n w stored H F ND St Hin.
  - now eexists _, _.
  - destruct (prunable del_before tagged tag_window v)
      as [b|e] eqn:Hb; simpl in H; [|discriminate].
    destruct (candidates del_before tagged tag_window versions)
      as [r0|e] eqn:Hr; simpl in H; [|discriminate].
    inversion H; subst r; clear H.
    unfold bind at 1, lift at 1.
    destruct b; [|now apply (IH r0 n w stored)].
    simpl in ND. apply List.NoDup_cons_iff in ND as [Hv ND].
    unfold bind at 1.
    rewrite (delete_version_ok container (id v) w stored);
      [|destruct (faults w) as [|[] ?]; [reflexivity|discriminate|reflexivity]
       |exact St|apply Hin; now left].
    set (w1 := set_store _ _).
    assert (F1 : forallb negb (faults w1) = true).
    { subst w1. simpl. destruct (faults w) as [|f fs]; [reflexivity|].
      simpl in F. now apply andb_true_iff in F as [_ F]. }
    assert (S1 : store w1 !! container =
                 Some (remove_version (id v) stored)).
    { subst w1. simpl. apply lookup_insert_eq. }
    assert (Hin1 : forall v', In v' r0 ->
              existsb (fun u => id u =? id v')
                (remove_version (id v) stored) = true).
    { intros v' Hv'. rewrite existsb_remove_version.
      - apply Hin. now right.
      - intros E. apply Hv. rewrite E. now apply in_map. }
    unfold bind, print, ret.
    destruct (Nat.eqb n 0);
      eapply (IH r0 (S n) _ _ eq_refl); simpl; eauto.
Qed.

Lemma for_each_app {A} (l1 l2 : list A) (body : A -> M unit) (w : World) :
  for_each (l1 ++ l2) body w =
  match for_each l1 body w with
  | (Ok _, w1) => for_each l2 body w1
  | (Raise e, w1) => (Raise e, w1)
  end.
Proof.
  revert w. induction l1 as [|x l1 IH]; simpl; intros w; [reflexivity|].
  unfold bind. destruct (body x w) as [[[]|e] w1]; [apply IH|reflexivity].
Qed.

(** An exception in the body ends the loop: the elements that follow are
    not visited. *)
Lemma for_each_abort {A} (before after : list A) (x : A) (body : A -> M unit)
    (w0 w w' : World) (e : exn) :
  for_each before body w0 = (Ok tt, w) ->
  body x w = (Raise e, w') ->
  for_each (before ++ x :: after) body w0 = (Raise e, w').
Proof.
  intros H1 H2. rewrite for_each_app, H1. simpl. unfold bind. now rewrite H2.
Qed.

(** ** The lines of the report *)

Lemma prints_indented_silent {A} (m : M A) :
  (forall w res w', m w = (res, w') -> stdout w' = stdout w) ->
  prints_indented m.
Proof.
  intros Hm w res w' H. exists []. rewrite app_nil_r. split; [|reflexivity].
  eapply Hm, H.
Qed.

Lemma prints_indented_ret {A} (a : A) : prints_indented (ret a).
Proof. apply prints_indented_silent. intros w res w' H. now inversion H. Qed.

Lemma prints_indented_lift {A} (r : Result A) : prints_indented (lift r).
Proof. apply prints_indented_silent. intros w res w' H. now inversion H. Qed.

Lemma prints_indented_delete (container : string) (i : Z) :
  prints_indented (delete_version container i).
Proof.
  apply prints_indented_silent. intros w res w' H.
  now apply delete_version_inv in H.
Qed.

Lemma prints_indented_print (line : string) :
  indented line = true -> prints_indented (print line).
Proof.
  intros Hl w res w' H. inversion H. exists [line]. simpl. now rewrite Hl.
Qed.

Lemma prints_indented_bind {A B} (m : M A) (k : A -> M B) :
  prints_indented m -> (forall a, prints_indented (k a)) ->
  prints_indented (bind m k).
Proof.
  intros Hm Hk w res w'. unfold bind.
  destruct (m w) as [[a|e] w1] eqn:E; intros H.
  - destruct (Hm _ _ _ E) as (l1 & S1 & F1).
    destruct (Hk _ _ _ _ H) as (l2 & S2 & F2).
    exists (l1 ++ l2). rewrite S2, S1, <- app_assoc. split; [reflexivity|].
    now rewrite forallb_app, F1, F2.
  - inversion H; subst. eapply Hm, E.
Qed.

Lemma prints_indented_prune_loop (container : string) (dry_run : bool)
    (del_before : Z) (tagged : list Z) (versions : list Version)
    (del_cnt : nat) :
  prints_indented
    (prune_loop container dry_run del_before tagged versions del_cnt).
Proof.
  revert del_cnt. induction versions as [|v versions IH]; intros n; simpl.
  - apply prints_indented_ret.
  - apply prints_indented_bind; [apply prints_indented_lift|].
    intros [|]; [|apply IH].
    apply prints_indented_bind; [|intros _].
    { destruct dry_run;
        [apply prints_indented_ret|apply prints_indented_delete]. }
    apply prints_indented_bind; [|intros _].
    { destruct (Nat.eqb n 0);
        [now apply prints_indented_print|apply prints_indented_ret]. }
    apply prints_indented_bind; [now apply prints_indented_print|intros _].
    apply IH.
Qed.

Lemma prints_indented_prune_versions (container : string) (dry_run : bool)
    (del_before : Z) (versions : list Version) :
  prints_indented (prune_versions container dry_run del_before versions).
Proof.
  apply prints_indented_bind; [apply prints_indented_lift|intros tagged].
  apply prints_indented_bind;
    [apply prints_indented_prune_loop|intros _; apply prints_indented_ret].
Qed.

Lemma get_versions_inv (container : string) (w : World)
    (res : Result (list Version)) (w' : World) :
  get_versions container w = (res, w') ->
  w' = add_request (GetVersions container) w.
Proof.
  unfold get_versions, bind, send.
  destruct (faults w) as [|[|] fs]; simpl;
    try destruct (store w !! container); intros H; now inversion H.
Qed.

Lemma get_versions_ok (container : string) (w : World)
    (versions : list Version) :
  hd false (faults w) = false ->
  store w !! container = Some versions ->
  get_versions container w =
  (Ok versions, add_request (GetVersions container) w).
Proof.
  intros F S. unfold get_versions, bind, send.
  destruct (faults w) as [|[|] fs]; try discriminate; simpl; now rewrite S.
Qed.

(** Whatever happens to a container, its section starts with its header
    and has only indented lines after it. *)
Lemma prune_container_stdout (prune_age : Z) (dry_run : bool)
    (container : string) (w : World) (res : Result unit) (w' : World) :
  prune_container prune_age dry_run container w = (res, w') ->
  exists lines,
    stdout w' = stdout w ++ section_header container :: lines /\
    forallb indented lines = true.
Proof.
  unfold prune_container, bind at 1, print.
  unfold bind at 1, datetime_now.
  unfold bind at 1.
  destruct (get_versions container (add_stdout _ w)) as [[versions|e] w1] eqn:G;
    apply get_versions_inv in G; intros H.
  - apply prints_indented_prune_versions in H as (lines & S & F).
    exists lines. rewrite S, G. simpl. now rewrite <- app_assoc.
  - inversion H; subst. now exists [].
Qed.

Lemma section_headers_app (l1 l2 : list string) :
  section_headers (l1 ++ l2) = section_headers l1 ++ section_headers l2.
Proof. apply List.filter_app. Qed.

Lemma section_headers_indented (lines : list string) :
  forallb indented lines = true -> section_headers lines = [].
Proof.
  induction lines as [|l lines IH]; simpl; [reflexivity|].
  intros H. apply andb_true_iff in H as [-> H]. simpl. now apply IH.
Qed.

(** The sections of a run are those of the containers it reached, in the
    order of the list. *)
Lemma for_each_sections (prune_age : Z) (dry_run : bool)
    (containers : list string) (w : World) (res : Result unit) (w' : World) :
  for_each containers (prune_container prune_age dry_run) w = (res, w') ->
  exists (k : nat) (lines : list string),
    stdout w' = stdout w ++ lines /\
    section_headers lines = map section_header (firstn k containers) /\
    (k <= length containers)%nat /\
    (res = Ok tt -> k = length containers).
Proof.
  revert w. induction containers as [|c containers IH]; simpl; intros w H.
  - inversion H. exists 0%nat, []. now rewrite app_nil_r.
  - unfold bind in H.
    destruct (prune_container prune_age dry_run c w) as [[[]|e] w1] eqn:E;
      apply prune_container_stdout in E as (l1 & S1 & F1).
    + destruct (IH _ H) as (k & l2 & S2 & H2 & Hk & Hok).
      exists (S k), (section_header c :: l1 ++ l2).
      rewrite S2, S1, <- app_assoc. split; [reflexivity|].
      simpl. rewrite section_headers_app, section_headers_indented, H2
        by exact F1.
      split; [reflexivity|]. split; [lia|]. intros R. now rewrite Hok.
    + inversion H; subst. exists 1%nat, (section_header c :: l1).
      split; [exact S1|]. simpl.
      rewrite section_headers_indented by exact F1.
      split; [now destruct containers|]. split; [lia|discriminate].
Qed.

(** ** One container *)

Lemma select_for_deletion_inv (versions : list Version) (cutoff window : Z)
    (r : list Version) :
  select_for_deletion versions cutoff window = Ok r ->
  exists tagged,
    tagged_created versions = Ok tagged /\
    candidates cutoff tagged window (sorted id_desc versions) = Ok r.
Proof.
  unfold select_for_deletion.
  destruct (tagged_created versions) as [tagged|e]; simpl; [|discriminate].
  intros H. now exists tagged.
Qed.

Lemma prune_container_unfold (prune_age : Z) (dry_run : bool)
    (container : string) (versions : list Version) (w : World) :
  hd false (faults w) = false ->
  store w !! container = Some versions ->
  prune_container prune_age dry_run container w =
  prune_versions container dry_run (current_time w - prune_age) versions
    (add_request (GetVersions container)
       (add_stdout (section_header container) w)).
Proof.
  intros F S. unfold prune_container, bind at 1, print.
  unfold bind at 1, datetime_now. unfold bind at 1.
  now rewrite (get_versions_ok container _ versions).
Qed.

Lemma prune_versions_live (container : string) (del_before : Z)
    (versions r : list Version) (w : World) (res : Result unit) (w' : World) :
  select_for_deletion versions del_before tag_window = Ok r ->
  prune_versions container false del_before versions w = (res, w') ->
  exists k : nat,
    requests w' =
      requests w ++
      map (fun v => DeleteVersion container (id v)) (firstn k r) /\
    match res with
    | Ok _ =>
        k = length r /\ stdout w' = stdout w ++ report_lines false 0 r
    | Raise e =>
        e = RequestException /\ (0 < k <= length r)%nat /\
        stdout w' = stdout w ++ report_lines false 0 (firstn (k - 1) r)
    end.
Proof.
  intros Hs Hrun. apply select_for_deletion_inv in Hs as (tagged & HT & Hc).
  unfold prune_versions in Hrun. rewrite HT in Hrun.
  unfold bind at 1, lift in Hrun. unfold bind, ret in Hrun.
  destruct (prune_loop container false del_before tagged
              (sorted id_desc versions) 0 w) as [[m|e] w1] eqn:E;
    inversion Hrun; subst;
    destruct (prune_loop_live _ _ _ _ _ _ _ _ _ Hc E) as (k & Hk & Hres);
    now exists k.
Qed.

Lemma NoDup_map_filter {A B} (f : A -> B) (p : A -> bool) (l : list A) :
  List.NoDup (map f l) -> List.NoDup (map f (List.filter p l)).
Proof.
  induction l as [|x l IH]; simpl; [trivial|].
  intros H. apply List.NoDup_cons_iff in H as [Hx H].
  destruct (p x); [|now apply IH]. simpl. constructor; [|now apply IH].
  intros Hin. apply Hx. apply in_map_iff in Hin as (y & Hy & Hin).
  apply in_map_iff. exists y. split; [exact Hy|].
  now apply List.filter_In in Hin as [Hin _].
Qed.

Lemma prune_versions_live_ok (container : string) (del_before : Z)
    (versions r : list Version) (w : World) :
  select_for_deletion versions del_before tag_window = Ok r ->
  forallb negb (faults w) = true ->
  List.NoDup (map id versions) ->
  store w !! container = Some versions ->
  exists w', prune_versions container false del_before versions w = (Ok tt, w').
Proof.
  intros Hs F ND St.
  pose proof (fun v => select_for_deletion_In _ _ _ _ v Hs) as HIn.
  pose proof Hs as Hspec. apply select_for_deletion_spec in Hspec as [_ Hr].
  apply select_for_deletion_inv in Hs as (tagged & HT & Hc).
  destruct (prune_loop_live_ok container del_before tagged
              (sorted id_desc versions) r 0 w versions Hc F)
    as (m & w' & E); [| exact St | |].
  - rewrite Hr. apply NoDup_map_filter.
    eapply Permutation_NoDup; [|exact ND].
    apply Permutation_map. symmetry. apply sorted_perm.
  - intros v Hv. apply existsb_exists. exists v.
    split; [now apply HIn|lia].
  - exists w'. unfold prune_versions. rewrite HT.
    unfold bind at 1, lift. unfold bind, ret. now rewrite E.
Qed.

(** ** The argument [all] *)

Lemma is_all_iff (containers : list string) :
  is_all containers = true <-> containers = ["all"].
Proof.
  unfold is_all. split.
  - destruct containers as [|c [|c' cs]]; simpl; try discriminate.
    intros H. apply String.eqb_eq in H. now subst.
  - now intros ->.
Qed.

Lemma container_prune_all (prune_age : Z) (dry_run : bool) (w : World) :
  hd false (faults w) = false ->
  container_prune ["all"] prune_age dry_run w =
  for_each (sorted String.leb (listing w))
    (prune_container prune_age dry_run) (add_request GetPackages w).
Proof.
  intros F. unfold container_prune. simpl.
  unfold bind at 1. unfold bind at 1, get_packages, bind, send.
  now destruct (faults w) as [|[|] fs].
Qed.

Lemma container_prune_named (containers : list string) (prune_age : Z)
    (dry_run : bool) (w : World) :
  is_all containers = false ->
  container_prune containers prune_age dry_run w =
  for_each containers (prune_container prune_age dry_run) w.
Proof. intros H. unfold container_prune. now rewrite H. Qed.

Lemma filter_none {A} (p : A -> bool) (l : list A) :
  (forall x, In x l -> p x = false) -> List.filter p l = [].
Proof.
  induction l as [|x l IH]; simpl; intros H; [reflexivity|].
  rewrite (H x) by now left. apply IH. intros y Hy. apply H. now right.
Qed.

Lemma is_candidate_tagged (versions : list Version) (cutoff window : Z)
    (v : Version) :
  has_tags v = true -> is_candidate versions cutoff window v = false.
Proof.
  intros H. unfold is_candidate. rewrite H.
  destruct (dateutil_parse (created_at v)); [|reflexivity].
  now rewrite andb_false_r.
Qed.

(** ** The claims on the run *)

(** C5. The argument list made of the one word [all] stands for every
    package the listing of the registry answers; this is the only form of
    the argument that does: [is_all] holds of no other list, and in any
    other list every name, [all] among others too, is taken as the name of
    a container, with no request for the packages. *)
Theorem all_is_the_only_argument (containers : list string) (prune_age : Z)
    (dry_run : bool) (w : World) :
  (is_all containers = true <-> containers = ["all"]) /\
  (hd false (faults w) = false ->
   container_prune ["all"] prune_age dry_run w =
   for_each (sorted String.leb (listing w))
     (prune_container prune_age dry_run) (add_request GetPackages w) /\
   forall c, In c (sorted String.leb (listing w)) <-> In c (listing w)) /\
  (containers <> ["all"] ->
   container_prune containers prune_age dry_run w =
   for_each containers (prune_container prune_age dry_run) w).
Proof.
  split; [apply is_all_iff|]. split.
  - intros F. split; [now apply container_prune_all|].
    intros c. apply sorted_In.
  - intros H. apply container_prune_named.
    destruct (is_all containers) eqn:E; [|reflexivity].
    now apply is_all_iff in E.
Qed.

(** C6. In the live run of a container whose listing succeeds, the
    requests sent after the listing are the deletions of the candidates in
    the order of the report (ids descending), one for each, up to the first
    that fails.  When the run of the container ends well they are all
    there; without faults and with ids that are not repeated it ends well.
    When it raises, the last request is the deletion that failed: it is not
    sent again, the versions reported as deleted are those before it, and
    the whole of [container_prune] ends there with the same exception,
    leaving the rest of this container and the containers after it
    untouched. *)
Theorem live_run_deletes_in_order_and_aborts (prune_age : Z)
    (container : string) (versions r : list Version) (w : World)
    (res : Result unit) (w' : World) :
  store w !! container = Some versions ->
  hd false (faults w) = false ->
  select_for_deletion versions (current_time w - prune_age) tag_window = Ok r ->
  prune_container prune_age false container w = (res, w') ->
  exists k : nat,
    requests w' =
      requests w ++
      GetVersions container ::
      map (fun v => DeleteVersion container (id v)) (firstn k r) /\
    (res = Ok tt ->
     k = length r /\
     stdout w' =
       stdout w ++ section_header container :: report_lines false 0 r) /\
    (forallb negb (faults w) = true -> List.NoDup (map id versions) ->
     res = Ok tt) /\
    (forall e, res = Raise e ->
       e = RequestException /\ (0 < k <= length r)%nat /\
       stdout w' =
         stdout w ++ section_header container ::
         report_lines false 0 (firstn (k - 1) r) /\
       forall before after w0,
         is_all (before ++ container :: after) = false ->
         for_each before (prune_container prune_age false) w0 = (Ok tt, w) ->
         container_prune (before ++ container :: after) prune_age false w0 =
         (Raise e, w')).
Proof.
  intros St F Hs Hrun. pose proof Hrun as Hrun0.
  rewrite (prune_container_unfold _ _ _ versions) in Hrun by assumption.
  set (w1 := add_request _ _) in Hrun.
  destruct (prune_versions_live _ _ _ _ _ _ _ Hs Hrun) as (k & Hk & Hres).
  exists k. split; [|split; [|split]].
  - rewrite Hk. subst w1. simpl. now rewrite <- app_assoc.
  - intros ->. destruct Hres as [-> So]. split; [reflexivity|].
    rewrite So. subst w1. simpl. now rewrite <- app_assoc.
  - intros Fs ND.
    destruct (prune_versions_live_ok container _ versions r w1 Hs)
      as (w2 & E); trivial.
    + subst w1. simpl. destruct (faults w) as [|f fs]; [reflexivity|].
      simpl in Fs. now apply andb_true_iff in Fs as [_ Fs].
    + rewrite E in Hrun. now inversion Hrun.
  - intros e ->. destruct Hres as (-> & Hpos & So).
    split; [reflexivity|]. split; [exact Hpos|]. split.
    + rewrite So. subst w1. simpl. now rewrite <- app_assoc.
    + intros before after w0 Hall Hbefore.
      rewrite container_prune_named by exact Hall.
      now apply for_each_abort with (w := w).
Qed.

(** C7. The dry run sends no deletion, however it ends: the registry
    holds the same versions after it, and the requests it added are none of
    them deletions.  The candidates of a container are still reported, one
    line each, under the line [Would delete:]. *)
Theorem dry_run_deletes_nothing (containers : list string) (prune_age : Z)
    (w : World) (res : Result unit) (w' : World)
    (container : string) (versions r : list Version) (w1 : World) :
  (container_prune containers prune_age true w = (res, w') ->
   store w' = store w /\
   exists new,
     requests w' = requests w ++ new /\
     forallb (fun q => negb (is_delete q)) new = true) /\
  (store w1 !! container = Some versions ->
   hd false (faults w1) = false ->
   select_for_deletion versions (current_time w1 - prune_age) tag_window
   = Ok r ->
   exists w2,
     prune_container prune_age true container w1 = (Ok tt, w2) /\
     store w2 = store w1 /\
     requests w2 = requests w1 ++ [GetVersions container] /\
     stdout w2 =
       stdout w1 ++ section_header container ::
       match r with
       | [] => []
       | _ :: _ => "  Would delete:" :: map (fun v => "  " +:+ name v) r
       end).
Proof.
  split.
  - apply deletes_nothing_container_prune.
  - intros St F Hs.
    rewrite (prune_container_unfold _ _ _ versions) by assumption.
    rewrite (prune_versions_dry _ _ _ r) by exact Hs.
    eexists. split; [reflexivity|]. simpl.
    split; [reflexivity|]. split; [reflexivity|].
    rewrite <- app_assoc. now destruct r.
Qed.

(** C8. On a validated listing the selection returns a result, for any
    cutoff and window: it raises nothing.  Deciding changes nothing: in
    whatever world the decision of the dry run is taken, once more after
    itself for one, it ends well, reports this same result, and leaves the
    world as it was but for the lines printed. *)
Theorem selection_total_and_pure (versions : list Version) (cutoff : Z) :
  validated versions = true ->
  (forall window, exists r,
     select_for_deletion versions cutoff window = Ok r) /\
  exists r,
    select_for_deletion versions cutoff tag_window = Ok r /\
    forall container w,
      prune_versions container true cutoff versions w =
      (Ok tt, add_lines (report_lines true 0 r) w).
Proof.
  intros Hv.
  assert (Hsel : forall window, exists r,
             select_for_deletion versions cutoff window = Ok r).
  { intros window. eexists. apply select_for_deletion_spec. eauto. }
  split; [exact Hsel|].
  destruct (Hsel tag_window) as [r Hr]. exists r. split; [exact Hr|].
  intros container w. now apply prune_versions_dry.
Qed.

(** C9. The empty listing selects nothing, without an error; so does a
    listing in which every version is tagged. *)
Theorem empty_or_all_tagged_selects_nothing (cutoff window : Z) :
  select_for_deletion [] cutoff window = Ok [] /\
  forall versions,
    validated versions = true ->
    forallb has_tags versions = true ->
    select_for_deletion versions cutoff window = Ok [].
Proof.
  split; [reflexivity|].
  intros versions Hv Ht. apply select_for_deletion_spec.
  split; [exact Hv|]. symmetry.
  rewrite (filter_sorted id_desc id_desc_total id_desc_trans).
  rewrite filter_none; [reflexivity|].
  intros v Hin. apply is_candidate_tagged.
  rewrite forallb_forall in Ht. now apply Ht.
Qed.

(** C10. With the argument [all], the containers are processed in the
    ascending order of their names: the loop runs over the sorted names,
    which are the names of the listing, whatever the order the registry
    answered them in, and the sections of the report are those of the first
    names of that sorted list, in that order; all of them when the run ends
    well. *)
Theorem all_processes_names_in_ascending_order (prune_age : Z)
    (dry_run : bool) (w : World) (res : Result unit) (w' : World) :
  hd false (faults w) = false ->
  container_prune ["all"] prune_age dry_run w = (res, w') ->
  let names := sorted String.leb (listing w) in
  container_prune ["all"] prune_age dry_run w =
    for_each names (prune_container prune_age dry_run)
      (add_request GetPackages w) /\
  Permutation names (listing w) /\
  StronglySorted (fun a b => String.leb a b = true) names /\
  (forall answered,
     Permutation answered (listing w) ->
     sorted String.leb answered = names) /\
  exists (k : nat) (lines : list string),
    stdout w' = stdout w ++ lines /\
    section_headers lines = map section_header (firstn k names) /\
    (res = Ok tt -> k = length names).
Proof.
  intros F Hrun names.
  pose proof (sorted_strongly String.leb String.leb_total string_leb_trans)
    as Hsorted.
  split; [now apply container_prune_all|].
  split; [apply sorted_perm|].
  split; [apply Hsorted|]. split.
  - intros answered HP.
    apply (strongly_sorted_unique (fun a b => String.leb a b = true));
      [|apply Hsorted|apply Hsorted|].
    + intros a b _ _. apply String.leb_antisym.
    + unfold names. now rewrite !sorted_perm.
  - rewrite container_prune_all in Hrun by exact F.
    apply for_each_sections in Hrun as (k & lines & So & Hh & _ & Hok).
    now exists k, lines.
Qed.

(** * Further properties *)

(** ** Of the selection *)

Lemma existsb_protects_false (versions : list Version) (window created : Z) :
  (forall u t, In u versions -> tags u <> [] ->
     dateutil_parse (created_at u) = Some t ->
     ~ (t - window < created <= t)) ->
  existsb (protects window created) versions = false.
Proof.
  intros H. apply not_true_is_false. intros E.
  apply existsb_exists in E as (u & Hu & Hp).
  unfold protects, has_tags in Hp.
  destruct (tags u) eqn:Ht; [discriminate|]. simpl in Hp.
  destruct (dateutil_parse (created_at u)) as [t|] eqn:Hd; [|discriminate].
  apply (H u t Hu); [congruence|exact Hd|lia].
Qed.

(** X1. Nothing eligible is skipped: a version of the listing that is untagged,
    older than the cutoff and in the window of no tagged version is
    selected. *)
Theorem eligible_version_selected (versions : list Version)
    (cutoff window : Z) (r : list Version) (v : Version) (created : Z) :
  select_for_deletion versions cutoff window = Ok r ->
  In v versions ->
  tags v = [] ->
  dateutil_parse (created_at v) = Some created ->
  created < cutoff ->
  (forall u t, In u versions -> tags u <> [] ->
     dateutil_parse (created_at u) = Some t ->
     ~ (t - window < created <= t)) ->
  In v r.
Proof.
  intros Hs Hv Ht Hc Hlt Hfree.
  apply (select_for_deletion_In _ _ _ _ v Hs). split; [exact Hv|].
  unfold is_candidate, has_tags. rewrite Hc, Ht.
  rewrite (existsb_protects_false _ _ _ Hfree). simpl.
  rewrite andb_true_r. lia.
Qed.

Lemma is_candidate_cutoff_mono (versions : list Version)
    (cutoff cutoff' window : Z) (v : Version) :
  cutoff <= cutoff' ->
  is_candidate versions cutoff window v = true ->
  is_candidate versions cutoff' window v = true.
Proof.
  intros Hle. unfold is_candidate.
  destruct (dateutil_parse (created_at v)) as [created|]; [|discriminate].
  intros H. apply andb_true_iff in H as [H ->].
  apply andb_true_iff in H as [H ->]. simpl.
  rewrite andb_true_r. lia.
Qed.

(** X2. A later cutoff (a smaller [--prune-age]) selects at least the same
    versions: when the selection returns for a cutoff it returns for every
    later one, with every version of the first result in it. *)
Theorem later_cutoff_selects_more (versions : list Version)
    (cutoff cutoff' window : Z) (r : list Version) :
  cutoff <= cutoff' ->
  select_for_deletion versions cutoff window = Ok r ->
  exists r',
    select_for_deletion versions cutoff' window = Ok r' /\
    forall v, In v r -> In v r'.
Proof.
  intros Hle Hs.
  pose proof (fun v => select_for_deletion_In _ _ _ _ v Hs) as HIn.
  apply select_for_deletion_spec in Hs as [Hval _].
  eexists. split.
  - apply select_for_deletion_spec. split; [exact Hval|reflexivity].
  - intros v Hv. apply HIn in Hv as [Hv Hc].
    apply List.filter_In. split; [now apply (sorted_In id_desc)|].
    now apply (is_candidate_cutoff_mono _ cutoff).
Qed.


Lemma tagged_created_raise (versions : list Version) (e : exn) :
  tagged_created versions = Raise e -> e = ValueError.
Proof.
  induction versions as [|u versions IH]; simpl; [discriminate|].
  destruct (has_tags u); [|exact IH]. unfold parse.
  destruct (dateutil_parse (created_at u)); simpl;
    [|intros H; now inversion H].
  destruct (tagged_created versions); simpl;
    [discriminate|intros H; inversion H; subst; now apply IH].
Qed.


Lemma selected_by_id (versions : list Version) (cutoff window : Z)
    (r : list Version) (u : Version) :
  List.NoDup (map id versions) ->
  select_for_deletion versions cutoff window = Ok r ->
  In u versions ->
  existsb (fun v => id v =? id u) r = is_candidate versions cutoff window u.
Proof.
  intros ND Hs Hu.
  pose proof (fun v => select_for_deletion_In _ _ _ _ v Hs) as HIn.
  apply eq_true_iff_eq. rewrite existsb_exists. split.
  - intros (v & Hv & E). apply HIn in Hv as [Hv Hc].
    assert (v = u) as <-; [|exact Hc].
    apply (NoDup_map_eq id versions); trivial. lia.
  - intros Hc. exists u. split; [|lia]. apply HIn. now split.
Qed.

Lemma without_not_selected (versions : list Version) (cutoff window : Z)
    (r : list Version) :
  List.NoDup (map id versions) ->
  select_for_deletion versions cutoff window = Ok r ->
  without r versions =
  List.filter (fun u => negb (is_candidate versions cutoff window u)) versions.
Proof.
  intros ND Hs. unfold without. apply List.filter_ext_in.
  intros u Hu. f_equal. now apply selected_by_id.
Qed.

(** Removing untagged versions from a listing opens or closes no
    protection window. *)
Lemma is_candidate_remaining (versions : list Version) (p : Version -> bool)
    (cutoff window : Z) (v : Version) :
  (forall u, In u versions -> has_tags u = true -> p u = true) ->
  is_candidate (List.filter p versions) cutoff window v =
  is_candidate versions cutoff window v.
Proof.
  intros Hp. unfold is_candidate.
  destruct (dateutil_parse (created_at v)) as [created|]; [|reflexivity].
  do 2 f_equal. apply eq_true_iff_eq. rewrite !existsb_exists.
  split; intros (u & Hu & Hpr); exists u; (split; [|exact Hpr]).
  - now apply List.filter_In in Hu as [Hu _].
  - apply List.filter_In. split; [exact Hu|]. apply Hp; [exact Hu|].
    unfold protects in Hpr. now apply andb_true_iff in Hpr as [Hpr _].
Qed.

Lemma validated_filter (p : Version -> bool) (versions : list Version) :
  validated versions = true -> validated (List.filter p versions) = true.
Proof.
  unfold validated. rewrite !forallb_forall. intros H v Hv.
  apply H. now apply List.filter_In in Hv as [Hv _].
Qed.

Lemma select_remaining (versions : list Version) (cutoff window : Z)
    (r : list Version) :
  List.NoDup (map id versions) ->
  select_for_deletion versions cutoff window = Ok r ->
  select_for_deletion (without r versions) cutoff window = Ok [].
Proof.
  intros ND Hs. rewrite (without_not_selected _ _ _ _ ND Hs).
  apply select_for_deletion_spec in Hs as [Hval _].
  apply select_for_deletion_spec. split; [now apply validated_filter|].
  symmetry. apply filter_none. intros v Hv.
  apply (proj1 (sorted_In id_desc _ _)) in Hv.
  apply List.filter_In in Hv as [Hv Hn].
  rewrite is_candidate_remaining.
  - now apply negb_true_iff.
  - intros u Hu Ht. now rewrite is_candidate_tagged.
Qed.

(** X4. Pruning is idempotent for a cutoff: in a listing without repeated ids,
    once the selected versions are removed the selection for the same
    cutoff is empty. *)
Theorem pruning_is_idempotent (versions : list Version) (cutoff window : Z)
    (r : list Version) :
  List.NoDup (map id versions) ->
  select_for_deletion versions cutoff window = Ok r ->
  select_for_deletion (without r versions) cutoff window = Ok [].
Proof. apply select_remaining. Qed.

(** ** Of the failures of a run *)



Lemma prune_loop_unread (container : string) (dry_run : bool)
    (del_before : Z) (tagged : list Z) (versions : list Version)
    (del_cnt : nat) (w : World) :
  validated versions = false ->
  exists e w',
    prune_loop container dry_run del_before tagged versions del_cnt w =
    (Raise e, w') /\
    (dry_run = true -> e = ValueError).
Proof.
  revert del_cnt w.
  induction versions as [|v versions IH]; simpl; intros n w Hv;
    [discriminate|].
  unfold bind at 1, lift, prunable, parse. unfold timestamp_ok in Hv.
  destruct (dateutil_parse (created_at v)) as [created|]; simpl;
    [|now eexists _, _].
  simpl in Hv.
  assert (Hrest : forall n' w0, exists e w',
            prune_loop container dry_run del_before tagged versions n' w0 =
            (Raise e, w') /\ (dry_run = true -> e = ValueError))
    by (intros; now apply IH).
  destruct ((created <? del_before) && negb (has_tags v)); simpl;
    [|apply Hrest].
  destruct (near_tagged tagged tag_window created); simpl; [apply Hrest|].
  unfold bind at 1. destruct dry_run.
  - unfold ret at 1. unfold bind, print, ret.
    destruct (Nat.eqb n 0); apply Hrest.
  - destruct (delete_version container (id v) w) as [[[]|e] w1] eqn:Hd.
    + unfold bind, print, ret. destruct (Nat.eqb n 0); apply Hrest.
    + eexists _, _. split; [reflexivity|discriminate].
Qed.

Lemma prune_versions_unread (container : string) (dry_run : bool)
    (del_before : Z) (versions : list Version) (w : World) :
  validated versions = false ->
  exists e w',
    prune_versions container dry_run del_before versions w = (Raise e, w') /\
    (dry_run = true -> e = ValueError).
Proof.
  intros Hval. unfold prune_versions.
  destruct (tagged_created versions) as [tagged|e] eqn:HT.
  - unfold bind at 1, lift.
    destruct (prune_loop_unread container dry_run del_before tagged
                (sorted id_desc versions) 0 w) as (e & w' & E & He).
    + now rewrite validated_sorted.
    + exists e, w'. unfold bind. now rewrite E.
  - apply tagged_created_raise in HT as ->.
    exists ValueError, w. now split.
Qed.


(** X7. A listing that fails, by a fault on the way or because the registry
    knows no such package, raises [RequestException] once the header of the
    container is printed and this one request is sent; the registry is not
    touched.  With [all], a failure of the listing of the packages raises
    before anything is printed. *)
Theorem failed_listing_raises (prune_age : Z) (dry_run : bool)
    (container : string) (w : World) :
  (hd false (faults w) = true \/ store w !! container = None ->
   prune_container prune_age dry_run container w =
   (Raise RequestException,
    add_request (GetVersions container)
      (add_stdout (section_header container) w))) /\
  (hd false (faults w) = true ->
   container_prune ["all"] prune_age dry_run w =
   (Raise RequestException, add_request GetPackages w)).
Proof.
  split.
  - intros H. unfold prune_container, bind at 1, print.
    unfold bind at 1, datetime_now. unfold bind at 1.
    unfold get_versions, bind, send. simpl.
    destruct (faults w) as [|[|] fs]; simpl in *;
      try reflexivity;
      (destruct H as [H|H]; [discriminate|]); now rewrite H.
  - intros H. unfold container_prune. simpl.
    unfold bind at 1. unfold bind at 1, get_packages, bind, send.
    destruct (faults w) as [|[|] fs]; simpl in H; try discriminate.
    reflexivity.
Qed.

(** ** Of the registry after a live run *)

Lemma delete_version_store (container : string) (i : Z) (w : World)
    (res : Result unit) (w' : World) (stored : list Version) :
  delete_version container i w = (res, w') ->
  store w !! container = Some stored ->
  (res = Ok tt /\
   store w' = <[container := remove_version i stored]> (store w)) \/
  (res = Raise RequestException /\ store w' = store w).
Proof.
  unfold delete_version, bind, send. intros H St.
  destruct (faults w) as [|[|] fs]; simpl in H; rewrite ?St in H;
    try (inversion H; subst; now right);
    (destruct (existsb _ stored);
     inversion H; subst; [now left|now right]).
Qed.

Lemma without_nil (stored : list Version) : without [] stored = stored.
Proof.
  unfold without. induction stored as [|u l IH]; simpl in *; congruence.
Qed.

Lemma without_cons (v : Version) (deleted stored : list Version) :
  without (v :: deleted) stored =
  without deleted (remove_version (id v) stored).
Proof.
  unfold without, remove_version.
  induction stored as [|u l IH]; simpl in *; [reflexivity|].
  rewrite (Z.eqb_sym (id v) (id u)).
  destruct (id u =? id v); simpl; [exact IH|]. now rewrite IH.
Qed.

(** The live loop removes from the registry the candidates it got to
    delete, and nothing else. *)
Lemma prune_loop_live_store (container : string) (del_before : Z)
    (tagged : list Z) (versions r : list Version) (del_cnt : nat)
    (w : World) (res : Result nat) (w' : World) (stored : list Version) :
  candidates del_before tagged tag_window versions = Ok r ->
  prune_loop container false del_before tagged versions del_cnt w = (res, w') ->
  store w !! container = Some stored ->
  exists j : nat,
    (j <= length r)%nat /\
    store w' = <[container := without (firstn j r) stored]> (store w) /\
    (forall m, res = Ok m -> j = length r).
Proof.
  revert r del_cnt w stored.
  induction versions as [|v versions IH]; simpl; intros r n w stored H Hrun St.
  - inversion H; subst. inversion Hrun; subst. exists 0%nat. simpl.
    rewrite without_nil, insert_id by exact St. auto.
  - destruct (prunable del_before tagged tag_window v)
      as [b|e] eqn:Hb; simpl in H; [|discriminate].
    destruct (candidates del_before tagged tag_window versions)
      as [r0|e] eqn:Hr; simpl in H; [|discriminate].
    inversion H; subst r; clear H.
    unfold bind at 1, lift at 1 in Hrun.
    destruct b; [|now apply (IH r0 n w stored)].
    unfold bind at 1 in Hrun.
    destruct (delete_version container (id v) w) as [[[]|e] w1] eqn:Hd;
      apply (delete_version_store _ _ _ _ _ stored) in Hd as [[E S1]|[E S1]];
      trivial; try discriminate.
    + assert (Hw2 : exists w2,
                prune_loop container false del_before tagged versions (S n) w2
                  = (res, w') /\ store w2 = store w1).
      { unfold bind, print, ret in Hrun.
        destruct (Nat.eqb n 0); eexists; (split; [exact Hrun|]); reflexivity. }
      destruct Hw2 as (w2 & Hrun2 & S2).
      destruct (IH r0 (S n) w2 (remove_version (id v) stored) eq_refl Hrun2)
        as (j & Hj & Hst & Hok).
      { rewrite S2, S1. apply lookup_insert_eq. }
      exists (S j). split; [simpl; lia|]. split.
      * rewrite Hst, S2, S1, insert_insert_eq. simpl.
        now rewrite without_cons.
      * intros m Hm. simpl. now rewrite (Hok m Hm).
    + inversion Hrun; subst. exists 0%nat. simpl.
      rewrite without_nil, S1, insert_id by exact St.
      split; [lia|]. split; [reflexivity|discriminate].
Qed.

Lemma prune_container_live_store (prune_age : Z) (container : string)
    (versions r : list Version) (w : World) (res : Result unit) (w' : World) :
  store w !! container = Some versions ->
  select_for_deletion versions (current_time w - prune_age) tag_window = Ok r ->
  prune_container prune_age false container w = (res, w') ->
  exists j : nat,
    (j <= length r)%nat /\
    store w' = <[container := without (firstn j r) versions]> (store w) /\
    (res = Ok tt -> j = length r).
Proof.
  intros St Hs Hrun.
  destruct (hd false (faults w)) eqn:F.
  - assert (E : prune_container prune_age false container w =
                (Raise RequestException,
                 add_request (GetVersions container)
                   (add_stdout (section_header container) w))).
    { unfold prune_container, bind at 1, print.
      unfold bind at 1, datetime_now. unfold bind at 1.
      unfold get_versions, bind, send. simpl.
      destruct (faults w) as [|[|] fs]; simpl in F; try discriminate.
      reflexivity. }
    rewrite E in Hrun. inversion Hrun; subst. exists 0%nat. simpl.
    rewrite without_nil, insert_id by exact St.
    split; [lia|]. split; [reflexivity|discriminate].
  - rewrite (prune_container_unfold _ _ _ versions) in Hrun by assumption.
    apply select_for_deletion_inv in Hs as (tagged & HT & Hc).
    unfold prune_versions in Hrun. rewrite HT in Hrun.
    unfold bind at 1, lift in Hrun. unfold bind, ret in Hrun.
    set (w1 := add_request _ _) in Hrun.
    destruct (prune_loop container false (current_time w - prune_age) tagged
                (sorted id_desc versions) 0 w1) as [[m|e] w2] eqn:E;
      inversion Hrun; subst;
      destruct (prune_loop_live_store _ _ _ _ _ _ _ _ _ versions Hc E St)
        as (j & Hj & Hst & Hok);
      exists j; (split; [exact Hj|]); (split; [exact Hst|]).
    + intros _. now apply (Hok m).
    + discriminate.
Qed.

(** X8. However a live run of a container ends, what it has removed from the
    registry is the versions with the ids of the first candidates in the
    order of the report, all of them when it ends well; the other packages
    hold what they held. *)
Theorem live_run_removes_candidates_only (prune_age : Z) (container : string)
    (versions r : list Version) (w : World) (res : Result unit) (w' : World) :
  store w !! container = Some versions ->
  select_for_deletion versions (current_time w - prune_age) tag_window = Ok r ->
  prune_container prune_age false container w = (res, w') ->
  exists j : nat,
    (j <= length r)%nat /\
    store w' !! container = Some (without (firstn j r) versions) /\
    (forall other, other <> container ->
       store w' !! other = store w !! other) /\
    (res = Ok tt -> j = length r).
Proof.
  intros St Hs Hrun.
  destruct (prune_container_live_store _ _ _ _ _ _ _ St Hs Hrun)
    as (j & Hj & Hst & Hok).
  exists j. rewrite Hst. split; [exact Hj|].
  split; [apply lookup_insert_eq|]. split; [|exact Hok].
  intros other Hne. now apply lookup_insert_ne.
Qed.

Lemma In_firstn {A} (n : nat) (l : list A) (x : A) :
  In x (firstn n l) -> In x l.
Proof.
  revert l. induction n as [|n IH]; intros [|y l]; simpl; try contradiction.
  intros [->|H]; [now left|right; now apply IH].
Qed.

Lemma without_keeps (versions deleted : list Version) (u : Version) :
  List.NoDup (map id versions) ->
  In u versions ->
  (forall v, In v deleted -> In v versions) ->
  ~ In u deleted ->
  In u (without deleted versions).
Proof.
  intros ND Hu Hsub Hnot. apply List.filter_In. split; [exact Hu|].
  apply negb_true_iff, not_true_is_false. intros E.
  apply existsb_exists in E as (v & Hv & E). apply Hnot.
  assert (v = u) as <-; [|exact Hv].
  apply (NoDup_map_eq id versions); auto. lia.
Qed.

(** X9. In a registry whose ids are not repeated, a live run deletes nothing
    it has not selected, however it ends: every version of the listing
    that is not a candidate, and so every tagged version, is in the
    registry after the run. *)
Theorem live_run_keeps_the_rest (prune_age : Z) (container : string)
    (versions r : list Version) (w : World) (res : Result unit) (w' : World) :
  List.NoDup (map id versions) ->
  store w !! container = Some versions ->
  select_for_deletion versions (current_time w - prune_age) tag_window = Ok r ->
  prune_container prune_age false container w = (res, w') ->
  exists remaining,
    store w' !! container = Some remaining /\
    (forall u, In u versions -> ~ In u r -> In u remaining) /\
    (forall u, In u versions -> tags u <> [] -> In u remaining).
Proof.
  intros ND St Hs Hrun.
  pose proof (fun v => select_for_deletion_In _ _ _ _ v Hs) as HIn.
  destruct (prune_container_live_store _ _ _ _ _ _ _ St Hs Hrun)
    as (j & Hj & Hst & Hok).
  exists (without (firstn j r) versions). rewrite Hst.
  split; [apply lookup_insert_eq|].
  assert (Hkeep : forall u, In u versions -> ~ In u r ->
                            In u (without (firstn j r) versions)).
  { intros u Hu Hnot. apply without_keeps; trivial.
    - intros v Hv. apply HIn. eapply In_firstn, Hv.
    - intros Hv. apply Hnot. eapply In_firstn, Hv. }
  split; [exact Hkeep|].
  intros u Hu Ht. apply Hkeep; [exact Hu|]. intros Hr.
  apply HIn in Hr as [_ Hr].
  rewrite is_candidate_tagged in Hr; [discriminate|].
  unfold has_tags. now destruct (tags u).
Qed.

(** X10. After a live pass over a registry whose ids are not repeated has ended
    well, nothing is left to prune for the same cutoff: the selection on
    what the registry now holds is empty, and a dry pass over it reports
    nothing. *)
Theorem second_pass_finds_nothing (container : string) (del_before : Z)
    (versions : list Version) (w w' : World) :
  List.NoDup (map id versions) ->
  store w !! container = Some versions ->
  prune_versions container false del_before versions w = (Ok tt, w') ->
  exists remaining,
    store w' !! container = Some remaining /\
    select_for_deletion remaining del_before tag_window = Ok [] /\
    forall w2,
      prune_versions container true del_before remaining w2 = (Ok tt, w2).
Proof.
  intros ND St Hrun.
  destruct (validated versions) eqn:Hval.
  2:{ destruct (prune_versions_unread container false del_before versions w
                  Hval) as (e & w2 & E & _). congruence. }
  assert (Hs : select_for_deletion versions del_before tag_window =
               Ok (List.filter (is_candidate versions del_before tag_window)
                     (sorted id_desc versions)))
    by (apply select_for_deletion_spec; auto).
  set (r := List.filter _ _) in Hs.
  pose proof Hs as Hs0.
  apply select_for_deletion_inv in Hs0 as (tagged & HT & Hc).
  unfold prune_versions in Hrun. rewrite HT in Hrun.
  unfold bind at 1, lift in Hrun. unfold bind, ret in Hrun.
  destruct (prune_loop container false del_before tagged
              (sorted id_desc versions) 0 w) as [[m|e] w2] eqn:E;
    inversion Hrun; subst.
  destruct (prune_loop_live_store _ _ _ _ _ _ _ _ _ versions Hc E St)
    as (j & Hj & Hst & Hok).
  rewrite (Hok m eq_refl), firstn_all in Hst.
  exists (without r versions). rewrite Hst.
  split; [apply lookup_insert_eq|].
  pose proof (select_remaining _ _ _ _ ND Hs) as Hrem.
  split; [exact Hrem|].
  intros w2. rewrite (prune_versions_dry _ _ _ [] w2 Hrem).
  simpl. now rewrite add_lines_nil.
Qed.

(** ** Of whole runs *)

Lemma is_all_app (l1 l2 : list string) :
  l1 <> ["all"] -> l2 <> ["all"] -> is_all (l1 ++ l2) = false.
Proof.
  intros H1 H2. apply not_true_is_false. intros E.
  apply is_all_iff in E.
  destruct l1 as [|a [|b l1]]; simpl in E.
  - now apply H2.
  - inversion E; subst. now apply H1.
  - discriminate.
Qed.

(** X11. Naming the containers of two runs in one run is running the one after
    the other, the second one only if the first ended well (neither list
    being the one word [all]). *)
Theorem runs_compose (l1 l2 : list string) (prune_age : Z) (dry_run : bool)
    (w : World) :
  l1 <> ["all"] -> l2 <> ["all"] ->
  container_prune (l1 ++ l2) prune_age dry_run w =
  match container_prune l1 prune_age dry_run w with
  | (Ok _, w1) => container_prune l2 prune_age dry_run w1
  | (Raise e, w1) => (Raise e, w1)
  end.
Proof.
  intros H1 H2.
  rewrite (container_prune_named (l1 ++ l2)) by now apply is_all_app.
  rewrite (container_prune_named l1)
    by (apply not_true_is_false; intros E; now apply is_all_iff in E).
  rewrite for_each_app.
  destruct (for_each l1 _ w) as [[[]|e] w1]; [|reflexivity].
  symmetry. apply container_prune_named.
  apply not_true_is_false. intros E. now apply is_all_iff in E.
Qed.

Lemma prune_loop_dry_requests (container : string) (del_before : Z)
    (tagged : list Z) (versions : list Version) (del_cnt : nat)
    (w : World) (res : Result nat) (w' : World) :
  prune_loop container true del_before tagged versions del_cnt w = (res, w') ->
  requests w' = requests w.
Proof.
  revert del_cnt w.
  induction versions as [|v versions IH]; simpl; intros n w H.
  - now inversion H.
  - unfold bind at 1, lift in H.
    destruct (prunable del_before tagged tag_window v) as [[|]|e];
      [| now apply IH in H | now inversion H].
    unfold bind, print, ret in H.
    destruct (Nat.eqb n 0); now apply IH in H.
Qed.

Lemma prune_container_dry_requests (prune_age : Z) (container : string)
    (w : World) (res : Result unit) (w' : World) :
  prune_container prune_age true container w = (res, w') ->
  requests w' = requests w ++ [GetVersions container].
Proof.
  unfold prune_container, bind at 1, print.
  unfold bind at 1, datetime_now. unfold bind at 1.
  destruct (get_versions container (add_stdout _ w)) as [[versions|e] w1] eqn:G;
    apply get_versions_inv in G; intros H.
  - unfold prune_versions, bind at 1, lift in H.
    destruct (tagged_created versions) as [tagged|e].
    + unfold bind, ret in H.
      destruct (prune_loop container true _ tagged _ 0 w1)
        as [[m|e] w2] eqn:E; inversion H; subst w2;
        apply prune_loop_dry_requests in E; now rewrite E, G.
    + inversion H; subst. reflexivity.
  - inversion H; subst. reflexivity.
Qed.

Lemma for_each_dry_requests (prune_age : Z) (containers : list string)
    (w : World) (res : Result unit) (w' : World) :
  for_each containers (prune_container prune_age true) w = (res, w') ->
  exists k : nat,
    (k <= length containers)%nat /\
    requests w' = requests w ++ map GetVersions (firstn k containers) /\
    (res = Ok tt -> k = length containers).
Proof.
  revert w. induction containers as [|c containers IH]; simpl; intros w H.
  - inversion H. exists 0%nat. now rewrite app_nil_r.
  - unfold bind in H.
    destruct (prune_container prune_age true c w) as [[[]|e] w1] eqn:E;
      apply prune_container_dry_requests in E.
    + destruct (IH _ H) as (k & Hk & Hr & Hok).
      exists (S k). split; [lia|]. split.
      * rewrite Hr, E, <- app_assoc. reflexivity.
      * intros R. now rewrite Hok.
    + inversion H; subst. exists 1%nat. split; [lia|].
      split; [|discriminate]. rewrite E. now destruct containers.
Qed.

(** X12. A dry run only reads: the requests it sends are the listing of the
    packages, when the argument is [all], and then one listing of versions
    for each container it gets to, in the order it takes them; all the
    containers when it ends well. *)
Theorem dry_run_only_lists (containers : list string) (prune_age : Z)
    (w : World) (res : Result unit) (w' : World) :
  container_prune containers prune_age true w = (res, w') ->
  let targets :=
    if is_all containers then sorted String.leb (listing w) else containers in
  exists k : nat,
    (k <= length targets)%nat /\
    requests w' =
      requests w ++
      (if is_all containers then [GetPackages] else []) ++
      map GetVersions (firstn k targets) /\
    (res = Ok tt -> k = length targets).
Proof.
  intros Hrun targets. subst targets.
  destruct (is_all containers) eqn:A.
  - apply is_all_iff in A. subst containers.
    destruct (hd false (faults w)) eqn:F.
    + unfold container_prune in Hrun. simpl in Hrun.
      unfold bind at 1 in Hrun.
      unfold bind at 1, get_packages, bind, send in Hrun.
      destruct (faults w) as [|[|] fs]; simpl in F; try discriminate.
      inversion Hrun; subst. exists 0%nat.
      split; [lia|]. split; [reflexivity|discriminate].
    + rewrite container_prune_all in Hrun by exact F.
      apply for_each_dry_requests in Hrun as (k & Hk & Hr & Hok).
      exists k. split; [exact Hk|]. split; [|exact Hok].
      rewrite Hr. simpl. now rewrite <- app_assoc.
  - rewrite container_prune_named in Hrun by exact A.
    apply for_each_dry_requests in Hrun as (k & Hk & Hr & Hok).
    now exists k.
Qed.

(** ** Of the text of a failure *)

Lemma app_cons (a : ascii) (s t : string) :
  String a s +:+ t = String a (s +:+ t).
Proof. reflexivity. Qed.

Lemma app_nil_l (t : string) : "" +:+ t = t.
Proof. reflexivity. Qed.

Lemma string_app_nil_r (s : string) : s +:+ "" = s.
Proof.
  induction s as [|a s IH]; [reflexivity|]. now rewrite app_cons, IH.
Qed.

Lemma string_app_assoc (s t u : string) :
  (s +:+ t) +:+ u = s +:+ t +:+ u.
Proof.
  induction s as [|a s IH]; [reflexivity|]. now rewrite !app_cons, IH.
Qed.

Lemma strip_prefix_inv (text s s' : string) :
  strip_prefix text s = Some s' -> s = text +:+ s'.
Proof.
  revert s. induction text as [|a text IH]; intros [|b s]; simpl;
    try discriminate; try (intros H; now inversion H).
  destruct (Ascii.eqb a b) eqn:E; [|discriminate].
  apply Ascii.eqb_eq in E as ->. intros H.
  rewrite app_cons. f_equal. now apply IH.
Qed.

Lemma greedy_inv {A} (p : ascii -> bool) (k : string -> string -> option A)
    (taken s : string) (r : A) :
  greedy p k taken s = Some r ->
  exists m s',
    s = m +:+ s' /\ all_chars p m = true /\ k (taken +:+ m) s' = Some r.
Proof.
  revert taken. induction s as [|c s IH]; simpl; intros taken H.
  - exists "", "". rewrite !string_app_nil_r. now repeat split.
  - assert (Hstop : k taken (String c s) = Some r ->
                    exists m s', String c s = m +:+ s' /\
                                 all_chars p m = true /\
                                 k (taken +:+ m) s' = Some r).
    { intros Hk. exists "", (String c s). rewrite !string_app_nil_r.
      now repeat split. }
    destruct (p c) eqn:Pc; [|now apply Hstop].
    destruct (greedy p k (taken +:+ String c "") s) as [r0|] eqn:G;
      [|now apply Hstop].
    inversion H; subst r0.
    destruct (IH _ G) as (m & s' & -> & Hm & Hk).
    exists (String c m), s'. rewrite app_cons. split; [reflexivity|].
    simpl. rewrite Pc, Hm. split; [reflexivity|].
    now rewrite string_app_assoc in Hk.
Qed.

(** What a construct matches is a text it accepts, at the start of the
    text it is given. *)
Lemma match_atom_inv {A} (a : atom) (k : string -> string -> option A)
    (s : string) (r : A) :
  match_atom a k s = Some r ->
  exists m s', s = m +:+ s' /\ accepts a m /\ k m s' = Some r.
Proof.
  destruct a as [text|p|p|p|p]; simpl.
  - destruct (strip_prefix text s) as [s'|] eqn:E; [|discriminate].
    apply strip_prefix_inv in E. intros H. now exists text, s'.
  - destruct s as [|c s]; [discriminate|].
    destruct (p c) eqn:Pc; [|discriminate].
    intros H. exists (String c ""), s. eauto.
  - assert (Hnone : k "" s = Some r ->
                    exists m s', s = m +:+ s' /\
                      (m = "" \/ exists c, m = String c "" /\ p c = true) /\
                      k m s' = Some r)
      by (intros H; exists "", s; auto).
    destruct s as [|c s]; [exact Hnone|].
    destruct (p c) eqn:Pc; [|exact Hnone].
    destruct (k (String c "") s) as [r0|] eqn:K; [|exact Hnone].
    intros H. inversion H; subst r0.
    exists (String c ""), s. eauto 6.
  - intros H. apply greedy_inv in H as (m & s' & -> & Hm & Hk).
    now exists m, s'.
  - destruct s as [|c s]; [discriminate|].
    destruct (p c) eqn:Pc; [|discriminate].
    intros H. apply greedy_inv in H as (m & s' & -> & Hm & Hk).
    exists (String c m), s'. rewrite app_cons. split; [reflexivity|].
    split; [|exact Hk]. split; [discriminate|]. simpl. now rewrite Pc.
Qed.

Lemma match_here_inv (items : pattern) (s : string) (groups : list string) :
  match_here items s = Some groups ->
  exists ms rest,
    s = join ms +:+ rest /\
    Forall2 (fun item m => accepts (snd item) m) items ms /\
    groups = groups_of items ms.
Proof.
  revert s groups. induction items as [|[captured a] items IH];
    simpl; intros s groups H.
  - inversion H. now exists [], s.
  - apply match_atom_inv in H as (m & s' & -> & Hacc & H).
    destruct (match_here items s') as [gs|] eqn:E; [|discriminate].
    destruct (IH _ _ E) as (ms & rest & -> & Hall & ->).
    exists (m :: ms), rest. simpl. rewrite string_app_assoc.
    split; [reflexivity|]. split; [now constructor|].
    inversion H. reflexivity.
Qed.

Lemma re_search_inv (items : pattern) (s : string) (groups : list string) :
  re_search items s = Some groups ->
  exists pre s', s = pre +:+ s' /\ match_here items s' = Some groups.
Proof.
  induction s as [|c s IH]; simpl.
  - destruct (match_here items "") eqn:E; [|discriminate].
    intros H. exists "", "". now rewrite E.
  - destruct (match_here items (String c s)) eqn:E.
    + intros H. exists "", (String c s). now rewrite E.
    + intros H. destruct (IH H) as (pre & s' & -> & Hm).
      now exists (String c pre), s'.
Qed.

(** Where the pattern of line 142 is found, and what its groups are. *)
Lemma caused_by_inv (msg : string) (groups : list string) :
  re_search caused_by msg = Some groups ->
  exists pre name mid reason post,
    groups = [name; reason] /\
    msg = pre +:+ "(Caused by " +:+ name +:+ "(" +:+ mid +:+ reason +:+
          "')" +:+ post /\
    name <> "" /\ all_chars is_word name = true /\
    all_chars is_dot reason = true.
Proof.
  intros H. apply re_search_inv in H as (pre & s' & -> & H).
  apply match_here_inv in H as (ms & post & -> & Hall & ->).
  unfold caused_by in Hall.
  repeat match goal with
         | H : Forall2 _ (_ :: _) _ |- _ =>
             inversion H; clear H; subst; simpl in *
         | H : Forall2 _ [] _ |- _ => inversion H; clear H; subst
         end.
  match goal with
  | H1 : _ <> "" /\ _, H2 : all_chars is_dot ?r = true |- _ =>
      destruct H1 as [Hne Hw]
  end.
  match goal with
  | |- exists _ _ _ _ _, [?n; ?r] = _ /\ _ =>
      match goal with
      | |- context [ ?n +:+ "(" +:+ ?q +:+ ?o +:+ ?c +:+ ?sp +:+ ?r +:+ _ ] =>
          exists pre, n, (q +:+ o +:+ c +:+ sp), r, post
      end
  end.
  split; [reflexivity|]. split; [|auto].
  simpl. rewrite !string_app_assoc, ?string_app_nil_r. reflexivity.
Qed.

Lemma simplify_inv (msg : string) :
  simplify msg = msg \/
  exists pre name mid post,
    msg = pre +:+ "(Caused by " +:+ name +:+ "(" +:+ mid +:+ simplify msg +:+
          "')" +:+ post /\
    name <> "" /\ all_chars is_word name = true /\
    all_chars is_dot (simplify msg) = true.
Proof.
  unfold simplify.
  destruct (re_search caused_by msg) as [groups|] eqn:E; [|now left].
  destruct (caused_by_inv _ _ E)
    as (pre & name & mid & reason & post & -> & Hm & Hn & Hw & Hd).
  right. now exists pre, name, mid, post.
Qed.

(** X13. The text printed for a failure is either the text of the exception as
    it is, or a part of it that has no line break, ends in front of a
    quote and a closing parenthesis, and comes after the opening of a
    cause, a name made of word characters and an opening parenthesis. *)
Theorem simplified_text_shape (msg : string) :
  simplify msg = msg \/
  exists pre name mid post,
    msg = pre +:+ "(Caused by " +:+ name +:+ "(" +:+ mid +:+ simplify msg +:+
          "')" +:+ post /\
    name <> "" /\ all_chars is_word name = true /\
    all_chars is_dot (simplify msg) = true.
Proof. apply simplify_inv. Qed.

(** X14. The text of an exception that nowhere opens a cause is printed as it
    is, after the name of the program. *)
Theorem text_without_cause_unchanged (prog msg : string) :
  (forall pre post, msg <> pre +:+ "(Caused by " +:+ post) ->
  failure_text prog msg = prog +:+ ": " +:+ msg.
Proof.
  intros H. unfold failure_text. do 2 f_equal.
  destruct (simplify_inv msg) as [E|(pre & name & mid & post & E & _)];
    [exact E|].
  exfalso. eapply H. exact E.
Qed.

Lemma strip_prefix_app (text s : string) :
  strip_prefix text (text +:+ s) = Some s.
Proof.
  induction text as [|a text IH]; [now destruct s|].
  rewrite app_cons. simpl. now rewrite Ascii.eqb_refl.
Qed.

(** A greedy class takes all of a text of the class that ends where the
    class ends, when what follows the class matches after it. *)
Lemma greedy_take {A} (p : ascii -> bool) (k : string -> string -> option A)
    (taken m s' : string) (r : A) :
  all_chars p m = true ->
  match s' with String c _ => p c = false | EmptyString => True end ->
  k (taken +:+ m) s' = Some r ->
  greedy p k taken (m +:+ s') = Some r.
Proof.
  revert taken. induction m as [|c m IH]; intros taken Hm Hs Hk.
  - rewrite app_nil_l. rewrite string_app_nil_r in Hk.
    destruct s' as [|c s']; simpl; [exact Hk|]. now rewrite Hs.
  - simpl in Hm. apply andb_true_iff in Hm as [Pc Hm].
    rewrite app_cons. simpl. rewrite Pc.
    rewrite (IH (taken +:+ String c "")); trivial.
    now rewrite string_app_assoc.
Qed.

(** The second group stops in front of the last quote and closing
    parenthesis of the line. *)
Lemma greedy_reason (taken reason : string) :
  all_chars is_dot reason = true ->
  greedy is_dot
    (fun m s' =>
       match match_here [(false, Lit "')")] s' with
       | Some groups => Some (m :: groups)
       | None => None
       end) taken (reason +:+ "'))")
  = Some [taken +:+ reason].
Proof.
  revert taken. induction reason as [|c reason IH]; intros taken Hd.
  - rewrite string_app_nil_r. reflexivity.
  - simpl in Hd. apply andb_true_iff in Hd as [Pc Hd].
    rewrite app_cons. simpl. rewrite Pc, IH by exact Hd.
    now rewrite string_app_assoc.
Qed.

Lemma match_here_open_C (a : ascii) (pre rest : string) :
  no_open_C (String a pre) = true ->
  match_here caused_by (String a (pre +:+ "(Caused by " +:+ rest)) = None.
Proof.
  intros H. cbn [no_open_C] in H. apply andb_true_iff in H as [H _].
  unfold caused_by. cbn [match_here match_atom strip_prefix].
  destruct (Ascii.eqb "(" a); [|reflexivity].
  destruct pre as [|b pre]; [reflexivity|].
  rewrite app_cons. cbn [strip_prefix andb negb] in *.
  now destruct (Ascii.eqb "C" b).
Qed.

Lemma re_search_skip (pre rest : string) :
  no_open_C pre = true ->
  re_search caused_by (pre +:+ "(Caused by " +:+ rest) =
  re_search caused_by ("(Caused by " +:+ rest).
Proof.
  induction pre as [|a pre IH]; [reflexivity|]. intros H.
  rewrite app_cons. cbn [re_search].
  rewrite match_here_open_C by exact H.
  apply IH. cbn [no_open_C] in H. now apply andb_true_iff in H as [_ H].
Qed.

Lemma re_search_here (items : pattern) (s : string) (groups : list string) :
  match_here items s = Some groups -> re_search items s = Some groups.
Proof. intros H. destruct s; simpl; now rewrite H. Qed.

Lemma match_here_cons (captured : bool) (a : atom) (rest : pattern)
    (s : string) :
  match_here ((captured, a) :: rest) s =
  match_atom a
    (fun m s' =>
       match match_here rest s' with
       | Some groups => Some (if captured then m :: groups else groups)
       | None => None
       end) s.
Proof. reflexivity. Qed.

Lemma match_here_cause (name obj reason : string) :
  name <> "" ->
  all_chars is_word name = true ->
  all_chars (fun c => negb (is_colon_or_quote c)) obj = true ->
  all_chars is_dot reason = true ->
  starts_with_space reason = false ->
  match_here caused_by
    ("(Caused by " +:+ name +:+ "('" +:+ obj +:+ ": " +:+ reason +:+ "'))")
  = Some [name; reason].
Proof.
  intros Hne Hw Ho Hd Hsp.
  assert (A0 : match_here [(true, Star is_dot); (false, Lit "')")]
                 (reason +:+ "'))") = Some [reason]).
  { rewrite match_here_cons. unfold match_atom.
    exact (greedy_reason "" reason Hd). }
  assert (A1 : match_here
                 [(false, Star (fun c => Ascii.eqb c " "));
                  (true, Star is_dot); (false, Lit "')")]
                 (" " +:+ reason +:+ "'))") = Some [reason]).
  { rewrite match_here_cons. unfold match_atom.
    apply greedy_take; [reflexivity| |].
    - destruct reason; [reflexivity|exact Hsp].
    - now rewrite A0. }
  assert (A2 : match_here
                 [(false, One is_colon_or_quote);
                  (false, Star (fun c => Ascii.eqb c " "));
                  (true, Star is_dot); (false, Lit "')")]
                 (": " +:+ reason +:+ "'))") = Some [reason]).
  { rewrite match_here_cons. unfold match_atom.
    change (": " +:+ reason +:+ "'))")
      with (String ":" (" " +:+ reason +:+ "'))")).
    change (is_colon_or_quote ":") with true. cbn iota. now rewrite A1. }
  assert (A3 : match_here
                 [(false, Star (fun c => negb (is_colon_or_quote c)));
                  (false, One is_colon_or_quote);
                  (false, Star (fun c => Ascii.eqb c " "));
                  (true, Star is_dot); (false, Lit "')")]
                 (obj +:+ ": " +:+ reason +:+ "'))") = Some [reason]).
  { rewrite match_here_cons. unfold match_atom.
    apply greedy_take; [exact Ho|reflexivity|]. now rewrite A2. }
  assert (A4 : match_here
                 [(false, Opt (fun c => Ascii.eqb c "'"));
                  (false, Star (fun c => negb (is_colon_or_quote c)));
                  (false, One is_colon_or_quote);
                  (false, Star (fun c => Ascii.eqb c " "));
                  (true, Star is_dot); (false, Lit "')")]
                 (String "'" (obj +:+ ": " +:+ reason +:+ "'))"))
               = Some [reason]).
  { rewrite match_here_cons. unfold match_atom.
    change (Ascii.eqb "'" "'") with true. cbn iota. now rewrite A3. }
  assert (A5 : match_here
                 [(false, Lit "(");
                  (false, Opt (fun c => Ascii.eqb c "'"));
                  (false, Star (fun c => negb (is_colon_or_quote c)));
                  (false, One is_colon_or_quote);
                  (false, Star (fun c => Ascii.eqb c " "));
                  (true, Star is_dot); (false, Lit "')")]
                 ("('" +:+ obj +:+ ": " +:+ reason +:+ "'))")
               = Some [reason]).
  { rewrite match_here_cons. unfold match_atom.
    change ("('" +:+ obj +:+ ": " +:+ reason +:+ "'))")
      with ("(" +:+ String "'" (obj +:+ ": " +:+ reason +:+ "'))")).
    rewrite strip_prefix_app. now rewrite A4. }
  assert (A6 : match_here
                 [(true, Plus is_word);
                  (false, Lit "(");
                  (false, Opt (fun c => Ascii.eqb c "'"));
                  (false, Star (fun c => negb (is_colon_or_quote c)));
                  (false, One is_colon_or_quote);
                  (false, Star (fun c => Ascii.eqb c " "));
                  (true, Star is_dot); (false, Lit "')")]
                 (name +:+ "('" +:+ obj +:+ ": " +:+ reason +:+ "'))")
               = Some [name; reason]).
  { rewrite match_here_cons. unfold match_atom.
    destruct name as [|c name]; [congruence|].
    cbn [all_chars] in Hw. apply andb_true_iff in Hw as [Pc Hw].
    rewrite app_cons, Pc.
    apply greedy_take; [exact Hw|reflexivity|]. now rewrite A5. }
  unfold caused_by. rewrite match_here_cons. unfold match_atom.
  rewrite strip_prefix_app. now rewrite A6.
Qed.

(** X15. The reason of a cause worded as urllib3 words it is what is printed:
    when the text ends with a cause that names an error, an object without
    colon or quote, a colon and a space, and a reason that has no line
    break and starts with no space, and no cause opens before it, the text
    printed is the name of the program and the reason. *)
Theorem cause_reason_extracted (prog pre name obj reason : string) :
  no_open_C pre = true ->
  name <> "" ->
  all_chars is_word name = true ->
  all_chars (fun c => negb (is_colon_or_quote c)) obj = true ->
  all_chars is_dot reason = true ->
  starts_with_space reason = false ->
  failure_text prog
    (pre +:+ "(Caused by " +:+ name +:+ "('" +:+ obj +:+ ": " +:+ reason +:+
     "'))")
  = prog +:+ ": " +:+ reason.
Proof.
  intros Hpre Hne Hw Ho Hd Hsp. unfold failure_text, simplify.
  rewrite re_search_skip by exact Hpre.
  now rewrite (re_search_here _ _ _ (match_here_cause _ _ _ Hne Hw Ho Hd Hsp)).
Qed.

(** ** Of the dry run as a forecast *)

(** X16. A dry run tells what the live run does: when the live run of a
    container ends well from some state of the world, the dry run from that
    state ends well too, the two reports name the same versions in the same
    order under their own heading, and the deletions the live run sent are
    those of these versions, in that order. *)
Theorem dry_run_forecasts_live_run (prune_age : Z) (container : string)
    (versions : list Version) (w wl : World) :
  store w !! container = Some versions ->
  hd false (faults w) = false ->
  prune_container prune_age false container w = (Ok tt, wl) ->
  exists r wd,
    prune_container prune_age true container w = (Ok tt, wd) /\
    stdout wd =
      stdout w ++ section_header container :: report_lines true 0 r /\
    stdout wl =
      stdout w ++ section_header container :: report_lines false 0 r /\
    requests wl =
      requests w ++ GetVersions container ::
      map (fun v => DeleteVersion container (id v)) r.
Proof.
  intros St F Hrun.
  rewrite (prune_container_unfold _ _ _ versions) in Hrun by assumption.
  set (w1 := add_request _ _) in Hrun.
  destruct (validated versions) eqn:Hval.
  2:{ destruct (prune_versions_unread container false
                  (current_time w - prune_age) versions w1 Hval)
        as (e & w2 & E & _). congruence. }
  assert (Hs : select_for_deletion versions (current_time w - prune_age)
                 tag_window =
               Ok (List.filter
                     (is_candidate versions (current_time w - prune_age)
                        tag_window)
                     (sorted id_desc versions)))
    by (apply select_for_deletion_spec; auto).
  set (r := List.filter _ _) in Hs.
  destruct (prune_versions_live _ _ _ _ _ _ _ Hs Hrun) as (k & Hk & -> & So).
  rewrite firstn_all in Hk.
  exists r, (add_lines (report_lines true 0 r) w1). split.
  - rewrite (prune_container_unfold _ _ _ versions) by assumption.
    exact (prune_versions_dry _ _ _ r w1 Hs).
  - rewrite So, Hk. subst w1. simpl.
    rewrite <- !app_assoc. auto.
Qed.

End Ghcr.

(** * Examples

    The scenarios of the specification and runs of [container_prune] in
    [example_world], with [example_parse] for the timestamps. *)

(** Versions with the same id keep the order of the listing. *)
Example sorted_stable :
  sorted id_desc
    [mkVersion 1 "a" "" []; mkVersion 2 "b" "" []; mkVersion 1 "c" "" [];
     mkVersion 2 "d" "" []]
  = [mkVersion 2 "b" "" []; mkVersion 2 "d" "" []; mkVersion 1 "a" "" [];
     mkVersion 1 "c" "" []].
Proof. reflexivity. Qed.

(** Scenario A: one old untagged version is selected. *)
Example scenario_A :
  select_for_deletion example_parse [v_layer] (example_now - week) tag_window
  = Ok [v_layer].
Proof. reflexivity. Qed.

(** Scenario B: the untagged version pushed ten minutes before the tagged
    one is protected. *)
Example scenario_B :
  select_for_deletion example_parse [v_layer; v_latest] (example_now - week)
    tag_window
  = Ok [].
Proof. reflexivity. Qed.

(** The window is open below and closed above, and ends at the tagged
    version: a version created with the tag is protected, one created
    fifteen minutes before it or after it is not. *)
Example window_bounds :
  near_tagged [1638317700000000] tag_window 1638317700000000 = true /\
  near_tagged [1638317700000000] tag_window 1638316800000000 = false /\
  near_tagged [1638317700000000] tag_window 1638316800000001 = true /\
  near_tagged [1638317700000000] tag_window 1638317700000001 = false.
Proof. repeat split. Qed.

Example selection_example :
  select_for_deletion example_parse
    [v_orphan2; v_orphan; v_layer; v_latest; v_recent]
    (example_now - week) tag_window
  = Ok [v_orphan2; v_orphan].
Proof. reflexivity. Qed.

(** A timestamp that does not read raises [ValueError]. *)
Example selection_raises :
  select_for_deletion example_parse [v_layer; v_broken] (example_now - week)
    tag_window
  = Raise ValueError.
Proof. reflexivity. Qed.

(** A live run over all the packages. *)
Example live_run_all :
  let (res, w') := container_prune example_parse ["all"] week false
                     (example_world []) in
  res = Ok tt /\
  requests w' =
    [GetPackages; GetVersions "api"; GetVersions "web";
     DeleteVersion "web" 5; DeleteVersion "web" 3] /\
  stdout w' =
    ["Pruning images of api..."; "Pruning images of web...";
     "  Deleted:"; "  sha256:5e"; "  sha256:3c"] /\
  store w' !! "web" = Some [v_layer; v_latest; v_recent].
Proof. vm_compute. repeat split. Qed.

(** The same run when the first deletion fails: nothing more is sent. *)
Example live_run_aborts :
  let (res, w') := container_prune example_parse ["web"; "api"] week false
                     (example_world [false; true]) in
  res = Raise RequestException /\
  requests w' = [GetVersions "web"; DeleteVersion "web" 5] /\
  stdout w' = ["Pruning images of web..."].
Proof. vm_compute. repeat split. Qed.

(** The dry run. *)
Example dry_run_all :
  let (res, w') := container_prune example_parse ["all"] week true
                     (example_world []) in
  res = Ok tt /\
  requests w' = [GetPackages; GetVersions "api"; GetVersions "web"] /\
  stdout w' =
    ["Pruning images of api..."; "Pruning images of web...";
     "  Would delete:"; "  sha256:5e"; "  sha256:3c"] /\
  store w' = store (example_world []).
Proof. vm_compute. repeat split. Qed.

(** [all] among other names is the name of a container. *)
Example all_among_names :
  let (res, w') := container_prune example_parse ["all"; "api"] week true
                     (example_world []) in
  res = Raise RequestException /\
  requests w' = [GetVersions "all"].
Proof. vm_compute. repeat split. Qed.

(** * Instances of the claims *)

Lemma protection_window_respected_witness :
  select_for_deletion example_parse
    [v_orphan2; v_orphan; v_layer; v_latest; v_recent]
    (example_now - week) tag_window = Ok [v_orphan2; v_orphan] /\
  ~ In v_layer [v_orphan2; v_orphan].
Proof.
  split; [reflexivity|].
  apply (protection_window_respected example_parse
           [v_orphan2; v_orphan; v_layer; v_latest; v_recent]
           (example_now - week) [v_orphan2; v_orphan] v_layer v_latest
           1638317400000000 1638316800000000).
  - reflexivity.
  - simpl. auto.
  - discriminate.
  - reflexivity.
  - reflexivity.
  - lia.
Defined.

Lemma selected_untagged_witness :
  In v_orphan [v_orphan2; v_orphan] /\ tags v_orphan = [].
Proof.
  split; [simpl; auto|].
  apply (selected_untagged example_parse
           [v_orphan2; v_orphan; v_layer; v_latest; v_recent]
           (example_now - week) tag_window [v_orphan2; v_orphan] v_orphan).
  - reflexivity.
  - simpl. auto.
Defined.

Lemma selected_before_cutoff_witness :
  In v_orphan2 [v_orphan2; v_orphan] /\
  exists created,
    example_parse (created_at v_orphan2) = Some created /\
    created < example_now - week.
Proof.
  split; [simpl; auto|].
  apply (selected_before_cutoff example_parse
           [v_orphan2; v_orphan; v_layer; v_latest; v_recent]
           (example_now - week) tag_window [v_orphan2; v_orphan] v_orphan2).
  - reflexivity.
  - simpl. auto.
Defined.

Lemma selection_sorted_by_id_desc_witness :
  [v_orphan2; v_orphan] =
  sorted id_desc
    (List.filter
       (is_candidate example_parse
          [v_orphan; v_layer; v_orphan2; v_latest; v_recent]
          (example_now - week) tag_window)
       [v_orphan; v_layer; v_orphan2; v_latest; v_recent]) /\
  StronglySorted (fun a b => id b <= id a) [v_orphan2; v_orphan].
Proof.
  destruct (selection_sorted_by_id_desc example_parse
              [v_orphan; v_layer; v_orphan2; v_latest; v_recent]
              (example_now - week) tag_window [v_orphan2; v_orphan])
    as (H1 & H2 & _).
  - reflexivity.
  - split; [exact H1|exact H2].
Defined.

Lemma all_is_the_only_argument_witness :
  container_prune example_parse ["all"; "api"] week true (example_world []) =
  for_each ["all"; "api"] (prune_container example_parse week true)
    (example_world []).
Proof.
  destruct (all_is_the_only_argument example_parse ["all"; "api"] week true
              (example_world [])) as (_ & _ & H).
  apply H. discriminate.
Defined.

Lemma live_run_deletes_in_order_and_aborts_witness :
  let run := prune_container example_parse week false "web"
               (example_world [false; false; true]) in
  exists k : nat,
    requests (snd run) =
      GetVersions "web" ::
      map (fun v => DeleteVersion "web" (id v))
        (firstn k [v_orphan2; v_orphan]) /\
    (0 < k <= 2)%nat.
Proof.
  intros run.
  destruct (live_run_deletes_in_order_and_aborts example_parse week "web"
              [v_orphan2; v_orphan; v_layer; v_latest; v_recent]
              [v_orphan2; v_orphan] (example_world [false; false; true])
              (fst run) (snd run))
    as (k & Hk & _ & _ & Hraise).
  - reflexivity.
  - reflexivity.
  - reflexivity.
  - apply surjective_pairing.
  - exists k. split; [exact Hk|].
    destruct (Hraise RequestException) as (_ & Hpos & _);
      [reflexivity|exact Hpos].
Defined.

Lemma dry_run_deletes_nothing_witness :
  let run := container_prune example_parse ["all"] week true
               (example_world []) in
  store (snd run) = store (example_world []) /\
  exists w2,
    prune_container example_parse week true "web" (example_world []) =
    (Ok tt, w2) /\
    stdout w2 =
      ["Pruning images of web..."; "  Would delete:";
       "  sha256:5e"; "  sha256:3c"].
Proof.
  intros run.
  destruct (dry_run_deletes_nothing example_parse ["all"] week
              (example_world []) (fst run) (snd run) "web"
              [v_orphan2; v_orphan; v_layer; v_latest; v_recent]
              [v_orphan2; v_orphan] (example_world [])) as [H1 H2].
  split.
  - apply H1. apply surjective_pairing.
  - destruct H2 as (w2 & E & _ & _ & So); [reflexivity..|].
    exists w2. split; [exact E|exact So].
Defined.

Lemma selection_total_and_pure_witness :
  exists r,
    select_for_deletion example_parse
      [v_orphan2; v_orphan; v_layer; v_latest; v_recent]
      (example_now - week) tag_window = Ok r.
Proof.
  destruct (selection_total_and_pure example_parse
              [v_orphan2; v_orphan; v_layer; v_latest; v_recent]
              (example_now - week)) as [H _].
  - reflexivity.
  - apply H.
Defined.

Lemma empty_or_all_tagged_selects_nothing_witness :
  select_for_deletion example_parse [v_latest] (example_now - week)
    tag_window = Ok [].
Proof.
  apply (empty_or_all_tagged_selects_nothing example_parse
           (example_now - week) tag_window).
  - reflexivity.
  - reflexivity.
Defined.

Lemma all_processes_names_in_ascending_order_witness :
  let run := container_prune example_parse ["all"] week false
               (example_world []) in
  sorted String.leb ["web"; "api"] = ["api"; "web"] /\
  exists (k : nat) (lines : list string),
    stdout (snd run) = lines /\
    section_headers lines =
      map section_header (firstn k ["api"; "web"]) /\
    (fst run = Ok tt -> k = 2%nat).
Proof.
  intros run. split; [reflexivity|].
  destruct (all_processes_names_in_ascending_order example_parse week false
              (example_world []) (fst run) (snd run))
    as (_ & _ & _ & _ & k & lines & H1 & H2 & H3).
  - reflexivity.
  - apply surjective_pairing.
  - exists k, lines. split; [exact H1|]. split; [exact H2|exact H3].
Defined.

(** * Examples of the text of a failure

    The pattern on texts that make it backtrack, as [re.search] answers
    them. *)

Example simplify_connection_failure :
  simplify example_failure =
  "Failed to establish a new connection: [Errno -2] Name or service not known".
Proof. reflexivity. Qed.

Example simplify_status_error :
  simplify "404 Client Error: Not Found for url: https://api.github.com/" =
  "404 Client Error: Not Found for url: https://api.github.com/".
Proof. reflexivity. Qed.

(** The second group runs to the last quote and parenthesis of the line. *)
Example simplify_two_causes :
  simplify "x (Caused by E('a')) y (Caused by F('b: c'))" =
  ")) y (Caused by F('b: c".
Proof. reflexivity. Qed.

(** The optional quote is given back when the text has no colon. *)
Example simplify_quote_given_back :
  simplify "(Caused by E('it's'))" = "s" /\
  simplify "(Caused by E('a'))" = "a".
Proof. split; reflexivity. Qed.

(** The characters before the colon may hold a line break, the reason may
    not. *)
Example simplify_line_breaks :
  simplify ("(Caused by E('a" +:+ String "010" "b: c'))") = "c" /\
  simplify ("(Caused by E(a: b" +:+ String "010" "c'))(Caused by G(x:y'))")
  = "y".
Proof. split; reflexivity. Qed.

(** The search moves on to the next position when the first one fails. *)
Example simplify_second_position :
  re_search caused_by "(Caused by (Caused by Err_1(':')"
  = Some ["Err_1"; ""].
Proof. reflexivity. Qed.

(** * Instances of the further properties *)

Lemma eligible_version_selected_witness :
  In v_orphan [v_orphan2; v_orphan].
Proof.
  apply (eligible_version_selected example_parse
           [v_orphan2; v_orphan; v_layer; v_latest; v_recent]
           (example_now - week) tag_window [v_orphan2; v_orphan] v_orphan
           1638320400000000).
  - reflexivity.
  - simpl. auto.
  - reflexivity.
  - reflexivity.
  - reflexivity.
  - intros u t Hu Ht Hp. simpl in Hu.
    destruct Hu as [<-|[<-|[<-|[<-|[<-|[]]]]]];
      try (exfalso; apply Ht; reflexivity).
    vm_compute in Hp. inversion Hp. unfold tag_window. lia.
Defined.

Lemma later_cutoff_selects_more_witness :
  select_for_deletion example_parse
    [v_orphan2; v_orphan; v_layer; v_latest; v_recent]
    1638318500000000 tag_window = Ok [v_orphan2] /\
  exists r',
    select_for_deletion example_parse
      [v_orphan2; v_orphan; v_layer; v_latest; v_recent]
      (example_now - week) tag_window = Ok r' /\
    forall v, In v [v_orphan2] -> In v r'.
Proof.
  split; [reflexivity|].
  apply (later_cutoff_selects_more example_parse
           [v_orphan2; v_orphan; v_layer; v_latest; v_recent]
           1638318500000000 (example_now - week) tag_window [v_orphan2]).
  - unfold example_now, week. lia.
  - reflexivity.
Defined.


Lemma example_ids_distinct :
  List.NoDup (map id [v_orphan2; v_orphan; v_layer; v_latest; v_recent]).
Proof.
  simpl. repeat (constructor; [simpl; intuition discriminate|]).
  constructor.
Defined.

Lemma pruning_is_idempotent_witness :
  select_for_deletion example_parse
    (without [v_orphan2; v_orphan]
       [v_orphan2; v_orphan; v_layer; v_latest; v_recent])
    (example_now - week) tag_window = Ok [].
Proof.
  apply (pruning_is_idempotent example_parse
           [v_orphan2; v_orphan; v_layer; v_latest; v_recent]
           (example_now - week) tag_window [v_orphan2; v_orphan]).
  - exact example_ids_distinct.
  - reflexivity.
Defined.



Lemma failed_listing_raises_witness :
  prune_container example_parse week false "nginx" (example_world []) =
  (Raise RequestException,
   add_request (GetVersions "nginx")
     (add_stdout (section_header "nginx") (example_world []))).
Proof.
  apply (failed_listing_raises example_parse week false "nginx"
           (example_world [])).
  right. reflexivity.
Defined.

Lemma live_run_removes_candidates_only_witness :
  let run := prune_container example_parse week false "web"
               (example_world [false; false; true]) in
  exists j : nat,
    (j <= 2)%nat /\
    store (snd run) !! "web" =
      Some (without (firstn j [v_orphan2; v_orphan])
              [v_orphan2; v_orphan; v_layer; v_latest; v_recent]) /\
    store (snd run) !! "api" = Some [v_latest].
Proof.
  intros run.
  destruct (live_run_removes_candidates_only example_parse week "web"
              [v_orphan2; v_orphan; v_layer; v_latest; v_recent]
              [v_orphan2; v_orphan] (example_world [false; false; true])
              (fst run) (snd run))
    as (j & Hj & Hst & Hother & _).
  - reflexivity.
  - reflexivity.
  - apply surjective_pairing.
  - exists j. split; [exact Hj|]. split; [exact Hst|].
    rewrite Hother by discriminate. reflexivity.
Defined.

Lemma live_run_keeps_the_rest_witness :
  let run := prune_container example_parse week false "web"
               (example_world [false; false; true]) in
  exists remaining,
    store (snd run) !! "web" = Some remaining /\ In v_latest remaining.
Proof.
  intros run.
  destruct (live_run_keeps_the_rest example_parse week "web"
              [v_orphan2; v_orphan; v_layer; v_latest; v_recent]
              [v_orphan2; v_orphan] (example_world [false; false; true])
              (fst run) (snd run))
    as (remaining & Hst & _ & Htag).
  - exact example_ids_distinct.
  - reflexivity.
  - reflexivity.
  - apply surjective_pairing.
  - exists remaining. split; [exact Hst|].
    apply Htag; [simpl; auto|discriminate].
Defined.

Lemma second_pass_finds_nothing_witness :
  let run := prune_versions example_parse "web" false (example_now - week)
               [v_orphan2; v_orphan; v_layer; v_latest; v_recent]
               (example_world []) in
  exists remaining,
    store (snd run) !! "web" = Some remaining /\
    select_for_deletion example_parse remaining (example_now - week)
      tag_window = Ok [].
Proof.
  intros run.
  destruct (second_pass_finds_nothing example_parse "web"
              (example_now - week)
              [v_orphan2; v_orphan; v_layer; v_latest; v_recent]
              (example_world []) (snd run))
    as (remaining & Hst & Hs & _).
  - exact example_ids_distinct.
  - reflexivity.
  - change (Ok tt) with (fst run). apply surjective_pairing.
  - now exists remaining.
Defined.

Lemma runs_compose_witness :
  container_prune example_parse (["web"] ++ ["api"]) week false
    (example_world []) =
  match container_prune example_parse ["web"] week false (example_world [])
  with
  | (Ok _, w1) => container_prune example_parse ["api"] week false w1
  | (Raise e, w1) => (Raise e, w1)
  end.
Proof.
  apply (runs_compose example_parse ["web"] ["api"] week false
           (example_world [])); discriminate.
Defined.

Lemma dry_run_only_lists_witness :
  let run := container_prune example_parse ["all"] week true
               (example_world []) in
  exists k : nat,
    (k <= 2)%nat /\
    requests (snd run) =
      GetPackages :: map GetVersions (firstn k ["api"; "web"]) /\
    (fst run = Ok tt -> k = 2%nat).
Proof.
  intros run.
  apply (dry_run_only_lists example_parse ["all"] week (example_world [])
           (fst run) (snd run)).
  apply surjective_pairing.
Defined.

Lemma text_without_cause_unchanged_witness :
  failure_text "ghcr_prune.py" "Invalid" = "ghcr_prune.py: Invalid".
Proof.
  apply (text_without_cause_unchanged "ghcr_prune.py" "Invalid").
  intros pre post H.
  do 7 (destruct pre as [|? pre]; [discriminate H|]).
  destruct pre; discriminate H.
Defined.

Lemma cause_reason_extracted_witness :
  failure_text "ghcr_prune.py" example_failure =
  "ghcr_prune.py: Failed to establish a new connection: " +:+
  "[Errno -2] Name or service not known".
Proof.
  apply (cause_reason_extracted "ghcr_prune.py"
           ("HTTPSConnectionPool(host='api.github.com', port=443): Max " +:+
            "retries exceeded with url: " +:+
            "/user/packages?package_type=container ")
           "NewConnectionError"
           "<urllib3.connection.HTTPSConnection object at 0x7f3a>"
           ("Failed to establish a new connection: " +:+
            "[Errno -2] Name or service not known"));
    [reflexivity|discriminate|reflexivity..].
Defined.

Lemma dry_run_forecasts_live_run_witness :
  exists r wd,
    prune_container example_parse week true "web" (example_world []) =
    (Ok tt, wd) /\
    stdout wd = section_header "web" :: report_lines true 0 r.
Proof.
  destruct (dry_run_forecasts_live_run example_parse week "web"
              [v_orphan2; v_orphan; v_layer; v_latest; v_recent]
              (example_world [])
              (snd (prune_container example_parse week false "web"
                      (example_world []))))
    as (r & wd & E & So & _).
  - reflexivity.
  - reflexivity.
  - change (Ok tt)
      with (fst (prune_container example_parse week false "web"
                   (example_world []))).
    apply surjective_pairing.
  - exists r, wd. split; [exact E|exact So].
Defined.
